(** * The essay-grading agent: response parsing and bibliography checking

    A shallow embedding of [bibliography.py], [tools.py] and the parsing
    tail of [agent.py], with the properties of the specification stated
    over it.

    Python [str] values are represented by their UTF-8 encoding, one
    [ascii] per byte.  Substring search and splitting on an ASCII needle
    give the same result on the encoding as on the code points. *)

From Stdlib Require Import String Ascii List ZArith QArith Lia Bool DecimalString.
From stdpp Require Import base option list gmap strings.

Set Default Proof Using "Type".
Set Warnings "-register-all".
Local Open Scope stdpp_scope.

(* ===================================================================== *)
(** * Python strings *)
(* ===================================================================== *)

Module PyStr.

Definition nl : string := String "010"%char "".
Definition dq : string := String "034"%char "".

(** A string given by its bytes. *)
Definition utf8 (bytes : list nat) : string :=
  fold_right (fun b s => String (ascii_of_nat b) s) "" bytes.

Fixpoint rev_onto (s acc : string) : string :=
  match s with
  | EmptyString => acc
  | String c s' => rev_onto s' (String c acc)
  end.

Definition rev (s : string) : string := rev_onto s "".

(** [s[n:]] *)
Fixpoint drop (n : nat) (s : string) : string :=
  match n, s with
  | S k, String _ s' => drop k s'
  | _, _ => s
  end.

(** [s.startswith(p)] *)
Fixpoint startswith (p s : string) : bool :=
  match p, s with
  | EmptyString, _ => true
  | String a p', String b s' => if decide (a = b) then startswith p' s' else false
  | String _ _, EmptyString => false
  end.

(** [sub in s] *)
Fixpoint contains (sub s : string) : bool :=
  match s with
  | EmptyString => startswith sub s
  | String _ s' => startswith sub s || contains sub s'
  end.

(** [s.partition(sep)] at the first occurrence of [sep], [None] when
    [sep] does not occur. *)
Fixpoint partition (sep s : string) : option (string * string) :=
  if startswith sep s then Some ("", drop (String.length sep) s)
  else match s with
       | EmptyString => None
       | String c s' =>
           match partition sep s' with
           | Some (a, b) => Some (String c a, b)
           | None => None
           end
       end.

(** [s.split(sep)] for a non-empty [sep]: the pieces between the
    occurrences of [sep] found scanning left to right without overlap.
    Every round consumes at least one character, so [length s] rounds
    are enough ([split_rounds_enough] below). *)
Fixpoint split_rounds (rounds : nat) (sep s : string) : list string :=
  match partition sep s with
  | None => [s]
  | Some (a, b) =>
      a :: match rounds with
           | 0 => [b]
           | S k => split_rounds k sep b
           end
  end.

Definition split (sep s : string) : list string :=
  split_rounds (String.length s) sep s.

(** [sep.join(xs)] *)
Fixpoint join (sep : string) (xs : list string) : string :=
  match xs with
  | [] => ""
  | [x] => x
  | x :: rest => x +:+ sep +:+ join sep rest
  end.

(** The code points for which [str.isspace] holds, in UTF-8:
    U+0009..U+000D, U+001C..U+001F, U+0020, U+0085, U+00A0, U+1680,
    U+2000..U+200A, U+2028, U+2029, U+202F, U+205F, U+3000. *)
Definition WHITESPACE : list string :=
  map utf8
    [ [9]; [10]; [11]; [12]; [13]; [28]; [29]; [30]; [31]; [32];
      [194; 133]; [194; 160]; [225; 154; 128];
      [226; 128; 128]; [226; 128; 129]; [226; 128; 130]; [226; 128; 131];
      [226; 128; 132]; [226; 128; 133]; [226; 128; 134]; [226; 128; 135];
      [226; 128; 136]; [226; 128; 137]; [226; 128; 138];
      [226; 128; 168]; [226; 128; 169]; [226; 128; 175];
      [226; 129; 159]; [227; 128; 128] ].

(** The rest of [s] after one leading token of [toks], if it has one. *)
Fixpoint chop (toks : list string) (s : string) : option string :=
  match toks with
  | [] => None
  | t :: ts =>
      if startswith t s then Some (drop (String.length t) s) else chop ts s
  end.

Fixpoint lstrip_rounds (toks : list string) (rounds : nat) (s : string) : string :=
  match rounds with
  | 0 => s
  | S k =>
      match chop toks s with
      | Some s' => lstrip_rounds toks k s'
      | None => s
      end
  end.

(** [s.lstrip()], [s.rstrip()], [s.strip()] *)
Definition lstrip (s : string) : string :=
  lstrip_rounds WHITESPACE (String.length s) s.

Definition rstrip (s : string) : string :=
  rev (lstrip_rounds (map rev WHITESPACE) (String.length s) (rev s)).

Definition strip (s : string) : string := rstrip (lstrip s).

(** [str(n)] for a non-negative [int]. *)
Definition of_nat (n : nat) : string :=
  NilZero.string_of_uint (Nat.to_uint n).

End PyStr.

(* ===================================================================== *)
(** * Python values, exceptions and effects *)
(* ===================================================================== *)

(** What [json.loads] can return.  A float keeps its lexeme; a dict is
    its items in insertion order, with distinct keys. *)
Inductive pyval : Type :=
| PNone
| PBool (b : bool)
| PInt (z : Z)
| PFloat (lexeme : string)
| PStr (s : string)
| PList (items : list pyval)
| PDict (items : list (string * pyval)).

(** The exception classes that occur.  [ValueError] is a [ValueError]
    that is no [JSONDecodeError]; [SearchError cause] stands for any
    [Exception] the search provider raises, [cause] being its [str()];
    the text of the other classes is never read by the program. *)
Inductive exn : Type :=
| JSONDecodeError
| IndexError
| KeyError
| TypeError
| AttributeError
| TimeoutError
| RecursionError
| ValueError
| FileNotFoundError
| PdfReadError
| SearchError (cause : string).

(** How a call goes: it returns a value, it raises, or it never comes
    back because it waits for something that never ends. *)
Inductive result (A : Type) : Type :=
| Return (a : A)
| Raise (e : exn)
| Hang.
Arguments Return {A} a.
Arguments Raise {A} e.
Arguments Hang {A}.

(** What [json.loads] does with a string: it returns the value, or it
    raises [JSONDecodeError] on text that is no JSON document,
    [RecursionError] on a document nested deeper than the interpreter
    allows, or [ValueError] on an integer literal with more digits than
    the interpreter converts. *)
Inductive decoding : Type :=
| Decodes (v : pyval)
| Malformed
| TooDeep
| TooLong.

(** What reading a file gives: its content or an exception. *)
Inductive opening (A : Type) : Type :=
| Opens (a : A)
| Refuses (e : exn).
Arguments Opens {A} a.
Arguments Refuses {A} e.

(** The externally visible actions, in the order they happen. *)
Inductive event : Type :=
| EvSearch (query : string)
| EvSleep (seconds : Q)
| EvLlm (prompt : string)
| EvAgent (prompt : string).

Definition log : Type := list event.

(** A computation reads the log so far and returns a result, raises or
    hangs, together with the log extended up to there. *)
Definition py (A : Type) : Type := log -> result A * log.

Definition ret {A} (a : A) : py A := fun l => (Return a, l).

Definition raise {A} (e : exn) : py A := fun l => (Raise e, l).

Definition hang {A} : py A := fun l => (Hang, l).

Definition bind {A B} (m : py A) (k : A -> py B) : py B :=
  fun l =>
    match m l with
    | (Return a, l') => k a l'
    | (Raise e, l') => (Raise e, l')
    | (Hang, l') => (Hang, l')
    end.

Definition emit (e : event) : py unit := fun l => (Return tt, l ++ [e]).

(** [try: m  except <classes> as e: h e]; [h e = None] when no clause
    matches [e]. *)
Definition try_except {A} (m : py A) (h : exn -> option (py A)) : py A :=
  fun l =>
    match m l with
    | (Return a, l') => (Return a, l')
    | (Raise e, l') =>
        match h e with
        | Some k => k l'
        | None => (Raise e, l')
        end
    | (Hang, l') => (Hang, l')
    end.

(** [with <manager>: m], for a manager whose [__exit__] is [exit] and
    swallows no exception: [exit] runs on every way out of the block,
    before the value is returned or the exception goes on. *)
Definition leaving {A} (m : py A) (exit : py unit) : py A :=
  fun l =>
    match m l with
    | (Hang, l') => (Hang, l')
    | (way_out, l') =>
        match exit l' with
        | (Return _, l'') => (way_out, l'')
        | (Raise e, l'') => (Raise e, l'')
        | (Hang, l'') => (Hang, l'')
        end
    end.

Declare Scope py_scope.
Delimit Scope py_scope with py.
Notation "x <- m ;; k" := (bind m (fun x => k))
  (at level 100, m at next level, right associativity) : py_scope.
Notation "m ;; k" := (bind m (fun _ => k))
  (at level 100, right associativity) : py_scope.

Local Open Scope py_scope.

(** [[f(x) for x in xs]] *)
Fixpoint for_each {A B} (f : A -> py B) (xs : list A) : py (list B) :=
  match xs with
  | [] => ret []
  | x :: rest =>
      y <- f x ;;
      ys <- for_each f rest ;;
      ret (y :: ys)
  end.

(** [xs[i]] *)
Definition item {A} (xs : list A) (i : nat) : py A :=
  match xs !! i with
  | Some x => ret x
  | None => raise IndexError
  end.

Definition dict_get (d : list (string * pyval)) (k : string) : option pyval :=
  snd <$> List.find (fun kv => bool_decide (fst kv = k)) d.

(** [v[k]] for a string [k] *)
Definition subscript (v : pyval) (k : string) : py pyval :=
  match v with
  | PDict d =>
      match dict_get d k with
      | Some x => ret x
      | None => raise KeyError
      end
  | _ => raise TypeError
  end.

(** [v.get(k, default)] *)
Definition get (v : pyval) (k : string) (fallback : pyval) : py pyval :=
  match v with
  | PDict d => ret (default fallback (dict_get d k))
  | _ => raise AttributeError
  end.

(** [v += s] for a string [s]: concatenation on a string, extension by
    the characters of [s] on a list, [TypeError] on anything else. *)
Definition iadd_str (v : pyval) (s : string) : py pyval :=
  match v with
  | PStr a => ret (PStr (a +:+ s))
  | PList l =>
      ret (PList (l ++ map (fun c => PStr (String c "")) (list_ascii_of_string s)))
  | _ => raise TypeError
  end.

(** The content of a model message: a string, or a list of parts each
    of which is a string or a dict that may carry a ["text"] entry. *)
Inductive part : Type :=
| PartStr (s : string)
| PartDict (text : option string).

Inductive content : Type :=
| ContentStr (s : string)
| ContentList (parts : list part).

(** A reference record, the dict of [search_single_reference]. *)
Record RefRecord : Type := mkRef {
  reference : string;
  verified : pyval;
  search_urls : list string;
  notes : pyval
}.

Definition set_notes (r : RefRecord) (v : pyval) : RefRecord :=
  {| reference := reference r; verified := verified r;
     search_urls := search_urls r; notes := v |}.

Definition set_verified (r : RefRecord) (v : pyval) : RefRecord :=
  {| reference := reference r; verified := v;
     search_urls := search_urls r; notes := notes r |}.

Definition set_search_urls (r : RefRecord) (urls : list string) : RefRecord :=
  {| reference := reference r; verified := verified r;
     search_urls := urls; notes := notes r |}.

(** What one submitted search does: it returns the URLs within the 10
    seconds that [future.result(timeout=10)] waits; it outlasts them and
    ends later; it raises an [Exception] within them; or it outlasts
    them and never ends. *)
Inductive search_outcome : Type :=
| Urls (urls : list string)
| TimedOut
| Failed (cause : string)
| Hangs.

Definition is_search (e : event) : bool :=
  match e with EvSearch _ => true | _ => false end.

Definition searches (l : log) : list event := List.filter is_search l.

(* ===================================================================== *)
(** * prompts.py *)
(* ===================================================================== *)

Module Prompts.
Import PyStr.

Definition GRADING_PROMPT_head : string :=
  join nl
  [
    "You are grading a student's essay. Below are the grading criteria and the essay text.";
    "";
    "## GRADING CRITERIA";
    "" ].

Definition GRADING_PROMPT_middle : string :=
  join nl
  [
    "";
    "";
    "## STUDENT ESSAY";
    "" ].

Definition GRADING_PROMPT_tail : string :=
  join nl
  [
    "";
    "";
    "## INSTRUCTIONS";
    "1. Carefully read the grading criteria and the essay.";
    "2. For EACH criterion listed above, provide:";
    "   - A score (out of the maximum points for that criterion, or out of 10 if no max is specified)";
    "   - Detailed, specific feedback explaining your score. Reference exact passages from the essay.";
    "   - Concrete suggestions for improvement.";
    "3. After evaluating all criteria, extract ALL bibliographic references from the essay.";
    "4. For each reference, use the search_reference tool to verify it exists and is correctly cited.";
    "5. Finally, provide an overall summary with:";
    "   - Total score";
    "   - Key strengths (be specific)";
    "   - Key weaknesses (be specific)";
    "   - Top 3 priority improvements the student should focus on";
    "";
    "You MUST respond with valid JSON in the following format:";
    "{";
    "  " +:+ dq +:+ "criteria_results" +:+ dq +:+ ": [";
    "    {";
    "      " +:+ dq +:+ "criterion_name" +:+ dq +:+ ": " +:+ dq +:+ "Name of the criterion" +:+ dq +:+ ",";
    "      " +:+ dq +:+ "score" +:+ dq +:+ ": <number>,";
    "      " +:+ dq +:+ "max_score" +:+ dq +:+ ": <number>,";
    "      " +:+ dq +:+ "feedback" +:+ dq +:+ ": " +:+ dq +:+ "Detailed feedback..." +:+ dq +:+ ",";
    "      " +:+ dq +:+ "suggestions" +:+ dq +:+ ": " +:+ dq +:+ "How to improve..." +:+ dq;
    "    }";
    "  ],";
    "  " +:+ dq +:+ "bibliography" +:+ dq +:+ ": [";
    "    {";
    "      " +:+ dq +:+ "reference" +:+ dq +:+ ": " +:+ dq +:+ "Full reference text as cited in the essay" +:+ dq +:+ ",";
    "      " +:+ dq +:+ "verified" +:+ dq +:+ ": true/false,";
    "      " +:+ dq +:+ "notes" +:+ dq +:+ ": " +:+ dq +:+ "Verification details " +:+ utf8 [226; 128; 148] +:+ " does it exist? Are authors/year/title correct?" +:+ dq;
    "    }";
    "  ],";
    "  " +:+ dq +:+ "total_score" +:+ dq +:+ ": <number>,";
    "  " +:+ dq +:+ "max_total_score" +:+ dq +:+ ": <number>,";
    "  " +:+ dq +:+ "overall_feedback" +:+ dq +:+ ": " +:+ dq +:+ "Summary of key strengths and weaknesses..." +:+ dq +:+ ",";
    "  " +:+ dq +:+ "priority_improvements" +:+ dq +:+ ": [" +:+ dq +:+ "improvement 1" +:+ dq +:+ ", " +:+ dq +:+ "improvement 2" +:+ dq +:+ ", " +:+ dq +:+ "improvement 3" +:+ dq +:+ "]";
    "}";
    "";
    "Be critical. Be thorough. Be fair. Do NOT inflate scores." ].

(** [GRADING_PROMPT.format(criteria_text=..., essay_text=...)] *)
Definition GRADING_PROMPT_format (criteria_text essay_text : string) : string :=
  GRADING_PROMPT_head +:+ criteria_text +:+ GRADING_PROMPT_middle
    +:+ essay_text +:+ GRADING_PROMPT_tail.

End Prompts.

(* ===================================================================== *)
(** * A JSON codec for the examples *)
(* ===================================================================== *)

(** The properties below hold for every decoder and encoder.  The closed
    examples run the program with this codec, which follows [json.loads]
    and [json.dumps(_, indent=2)] on ASCII text without [\u] escapes. *)
Module Json.
Import PyStr.

Definition is_digit (c : ascii) : bool :=
  (48 <=? nat_of_ascii c) && (nat_of_ascii c <=? 57).

Definition is_json_space (c : ascii) : bool :=
  match nat_of_ascii c with
  | 9 | 10 | 13 | 32 => true
  | _ => false
  end.

Fixpoint skip_space (s : string) : string :=
  match s with
  | String c s' => if is_json_space c then skip_space s' else s
  | EmptyString => s
  end.

(** The longest run of digits at the head of [s], and the rest. *)
Fixpoint digits (s : string) : string * string :=
  match s with
  | String c s' =>
      if is_digit c then let '(d, r) := digits s' in (String c d, r)
      else ("", s)
  | EmptyString => ("", s)
  end.

Fixpoint nat_of_digits (acc : nat) (d : string) : nat :=
  match d with
  | String c d' => nat_of_digits (10 * acc + (nat_of_ascii c - 48)) d'
  | EmptyString => acc
  end.

(** A number: an optional minus, an integer part without leading zero,
    an optional fraction and an optional exponent; an [int] when it has
    neither fraction nor exponent, a [float] otherwise. *)
Definition number (s : string) : option (pyval * string) :=
  let '(sign, s1) :=
    match s with
    | String "-" r => ("-", r)
    | _ => ("", s)
    end in
  let '(int_part, s2) := digits s1 in
  match int_part with
  | EmptyString => None
  | String c more =>
      if bool_decide (c = "0"%char) && negb (bool_decide (more = "")) then
        (* [json.loads("01")] stops after the 0 and reports extra data *)
        Some (PInt 0, more +:+ s2)
      else
        let '(frac, s3) :=
          match s2 with
          | String "." r =>
              let '(d, r') := digits r in
              match d with
              | EmptyString => ("", s2)
              | _ => ("." +:+ d, r')
              end
          | _ => ("", s2)
          end in
        let '(exp, s4) :=
          match s3 with
          | String e r =>
              if bool_decide (e = "e"%char) || bool_decide (e = "E"%char) then
                let '(esign, r1) :=
                  match r with
                  | String "+" r1 => ("+", r1)
                  | String "-" r1 => ("-", r1)
                  | _ => ("", r)
                  end in
                let '(d, r2) := digits r1 in
                match d with
                | EmptyString => ("", s3)
                | _ => (String e esign +:+ d, r2)
                end
              else ("", s3)
          | EmptyString => ("", s3)
          end in
        match frac, exp with
        | EmptyString, EmptyString =>
            let n := Z.of_nat (nat_of_digits 0 int_part) in
            Some (PInt (if bool_decide (sign = "-") then (- n)%Z else n), s4)
        | _, _ => Some (PFloat (sign +:+ int_part +:+ frac +:+ exp), s4)
        end
  end.

(** The characters of a string literal after its opening quote. *)
Fixpoint string_body (s : string) : option (string * string) :=
  match s with
  | EmptyString => None
  | String c r =>
      if bool_decide (c = "034"%char) then Some ("", r)
      else if bool_decide (c = "\"%char) then
        match r with
        | String e r' =>
            let unescaped :=
              match e with
              | "034"%char => Some "034"%char
              | "\"%char => Some "\"%char
              | "/"%char => Some "/"%char
              | "b"%char => Some "008"%char
              | "f"%char => Some "012"%char
              | "n"%char => Some "010"%char
              | "r"%char => Some "013"%char
              | "t"%char => Some "009"%char
              | _ => None
              end in
            match unescaped, string_body r' with
            | Some u, Some (body, rest) => Some (String u body, rest)
            | _, _ => None
            end
        | EmptyString => None
        end
      else if nat_of_ascii c <? 32 then None
      else
        match string_body r with
        | Some (body, rest) => Some (String c body, rest)
        | None => None
        end
  end.

(** [d[k] = v] on the items of a dict. *)
Fixpoint dict_set (d : list (string * pyval)) (k : string) (v : pyval)
  : list (string * pyval) :=
  match d with
  | [] => [(k, v)]
  | (k', v') :: rest =>
      if bool_decide (k' = k) then (k, v) :: rest else (k', v') :: dict_set rest k v
  end.

Definition literal (word : string) (v : pyval) (s : string) : option (pyval * string) :=
  if startswith word s then Some (v, drop (String.length word) s) else None.

Fixpoint value (fuel : nat) (s : string) : option (pyval * string) :=
  match fuel with
  | 0 => None
  | S fuel =>
      match skip_space s with
      | String "[" r =>
          match skip_space r with
          | String "]" r' => Some (PList [], r')
          | _ => elements fuel r []
          end
      | String "{" r =>
          match skip_space r with
          | String "}" r' => Some (PDict [], r')
          | _ => members fuel r []
          end
      | String "034" r =>
          match string_body r with
          | Some (body, rest) => Some (PStr body, rest)
          | None => None
          end
      | String "n" _ as t => literal "null" PNone t
      | String "t" _ as t => literal "true" (PBool true) t
      | String "f" _ as t => literal "false" (PBool false) t
      | String "N" _ as t => literal "NaN" (PFloat "NaN") t
      | String "I" _ as t => literal "Infinity" (PFloat "Infinity") t
      | String "-" (String "I" _) as t => literal "-Infinity" (PFloat "-Infinity") t
      | t => number t
      end
  end
with elements (fuel : nat) (s : string) (acc : list pyval) : option (pyval * string) :=
  match fuel with
  | 0 => None
  | S fuel =>
      match value fuel s with
      | Some (v, r) =>
          match skip_space r with
          | String "," r' => elements fuel r' (acc ++ [v])
          | String "]" r' => Some (PList (acc ++ [v]), r')
          | _ => None
          end
      | None => None
      end
  end
with members (fuel : nat) (s : string) (acc : list (string * pyval))
  : option (pyval * string) :=
  match fuel with
  | 0 => None
  | S fuel =>
      match skip_space s with
      | String "034" r =>
          match string_body r with
          | Some (k, r1) =>
              match skip_space r1 with
              | String ":" r2 =>
                  match value fuel r2 with
                  | Some (v, r3) =>
                      match skip_space r3 with
                      | String "," r4 => members fuel r4 (dict_set acc k v)
                      | String "}" r4 => Some (PDict (dict_set acc k v), r4)
                      | _ => None
                      end
                  | None => None
                  end
              | _ => None
              end
          | None => None
          end
      | _ => None
      end
  end.

(** [json.loads(s)] on the documents of the examples, none of which
    comes near the limits of the interpreter. *)
Definition loads (s : string) : decoding :=
  match value (2 * String.length s + 2) s with
  | Some (v, rest) =>
      match skip_space rest with
      | EmptyString => Decodes v
      | String _ _ => Malformed
      end
  | None => Malformed
  end.

Definition of_Z (z : Z) : string := NilZero.string_of_int (Z.to_int z).

Definition hex_digit (n : nat) : ascii :=
  ascii_of_nat (if n <? 10 then 48 + n else 87 + n).

Fixpoint escape (s : string) : string :=
  match s with
  | EmptyString => ""
  | String c r =>
      (match c with
       | "034"%char => "\" +:+ dq
       | "\"%char => "\\"
       | "010"%char => "\n"
       | "013"%char => "\r"
       | "009"%char => "\t"
       | "008"%char => "\b"
       | "012"%char => "\f"
       | _ =>
           if nat_of_ascii c <? 32 then
             "\u00" +:+ String (hex_digit (nat_of_ascii c / 16))
                          (String (hex_digit (nat_of_ascii c mod 16)) "")
           else String c ""
       end) +:+ escape r
  end.

Definition quote (s : string) : string := dq +:+ escape s +:+ dq.

Fixpoint pad (level : nat) : string :=
  match level with
  | 0 => ""
  | S k => "  " +:+ pad k
  end.

Fixpoint dumps_at (level : nat) (v : pyval) : string :=
  match v with
  | PNone => "null"
  | PBool true => "true"
  | PBool false => "false"
  | PInt z => of_Z z
  | PFloat lexeme => lexeme
  | PStr s => quote s
  | PList [] => "[]"
  | PList items =>
      "[" +:+ nl
      +:+ join ("," +:+ nl)
            (map (fun x => pad (S level) +:+ dumps_at (S level) x) items)
      +:+ nl +:+ pad level +:+ "]"
  | PDict [] => "{}"
  | PDict items =>
      "{" +:+ nl
      +:+ join ("," +:+ nl)
            (map (fun '(k, x) =>
                    pad (S level) +:+ quote k +:+ ": " +:+ dumps_at (S level) x)
               items)
      +:+ nl +:+ pad level +:+ "}"
  end.

(** [json.dumps(v, indent=2)] *)
Definition dumps (v : pyval) : string := dumps_at 0 v.

(** [str(v)] of a value that is not a string, for scalars. *)
Definition repr (v : pyval) : string :=
  match v with
  | PNone => "None"
  | PBool true => "True"
  | PBool false => "False"
  | PInt z => of_Z z
  | PFloat lexeme => lexeme
  | _ => dumps v
  end.

End Json.

(* ===================================================================== *)
(** * The files, the page and the program run *)
(* ===================================================================== *)

(** An uploaded file, by what the program reads from it: its [name],
    the text of each page when [PdfReader] opens it, and
    [read().decode("utf-8", errors="replace")]. *)
Record UploadedFile : Type := mkUpload {
  file_name : string;
  file_pages : list (option string);
  file_text : string
}.

(** The calls to Streamlit, and how the run of the script goes on: it
    falls off the end, [st.stop()] ends it, an exception ends it, or it
    goes on to display the structured result (the display is not
    modelled). *)
Inductive st_call : Type :=
| StInfo (body : string)
| StButton (label : string)
| StSpinner (text : string)
| StError (body : string)
| StCaption (body : string)
| StWarning (body : string)
| StMarkdown (body : pyval).

Inductive page_end : Type :=
| FallsThrough
| Stops
| PageRaises (e : exn)
| Displays (result : pyval)
| PageHangs.

(** How a run of the program ends, if it does. *)
Inductive ending : Type :=
| Ends
| Exits (status : Z)
| Raises (e : exn)
| NeverEnds.

(* ===================================================================== *)
(** * Worlds for the examples *)
(* ===================================================================== *)

Module Scenario.
Import PyStr.

Definition smith : string :=
  "Smith, J. (2020). Deep Learning. Nature, 521, 436-444.".

Definition lecun : string :=
  "LeCun, Y. (2015). Learning Deep. Science, 1, 2-3.".

(** The records the searcher returns when each search finds one URL. *)
Definition smith_found : RefRecord :=
  {| reference := smith; verified := PBool false;
     search_urls := ["https://www.nature.com/articles/nature14539"];
     notes := PStr "Found 1 search results." |}.

Definition lecun_found : RefRecord :=
  {| reference := lecun; verified := PBool false;
     search_urls := ["https://www.science.org/doi/10.1126/science.1"];
     notes := PStr "Found 1 search results." |}.

(** A search that outlasts the timeout and ends later, one that never
    ends, and one that finds one URL. *)
Definition web_times_out : nat -> string -> search_outcome :=
  fun _ _ => TimedOut.

Definition web_hangs : nat -> string -> search_outcome :=
  fun _ _ => Hangs.

Definition web_finds_one : nat -> string -> search_outcome :=
  fun _ _ => Urls ["https://www.nature.com/articles/nature14539"].

(** A model that gives the same reply to every prompt. *)
Definition replies (reply : string) : string -> content :=
  fun _ => ContentStr reply.

(** A string in double quotes. *)
Definition q (s : string) : string := dq +:+ s +:+ dq.

(** A verdict on [smith] alone. *)
Definition verdict_on_smith : string :=
  "[{" +:+ q "reference" +:+ ": " +:+ q smith +:+ ", "
  +:+ q "verified" +:+ ": true, "
  +:+ q "notes" +:+ ": " +:+ q "Confirmed by nature.com." +:+ "}]".

(** What [verdict_on_smith] decodes to. *)
Definition smith_verdicts : list pyval :=
  [ PDict [ ("reference", PStr smith); ("verified", PBool true);
            ("notes", PStr "Confirmed by nature.com.") ] ].

(** A JSON object where an array is asked for. *)
Definition object_reply : string :=
  "{" +:+ q "error" +:+ ": " +:+ q "no verdicts" +:+ "}".

(** An array of sentences where an array of objects is asked for. *)
Definition sentences_reply : string :=
  "[" +:+ q "The reference appears to be real." +:+ "]".

(** A verdict under the key [ref] instead of [reference]. *)
Definition misnamed_reply : string :=
  "[{" +:+ q "ref" +:+ ": " +:+ q smith +:+ ", " +:+ q "verified" +:+ ": true}]".

(** A model that extracts [smith] from any essay and answers the
    verification prompt with sentences. *)
Definition extracts_then_chats (prompt : string) : content :=
  if startswith "Extract ALL" prompt
  then ContentStr ("[" +:+ q smith +:+ "]")
  else ContentStr sentences_reply.

(** A final message in three parts, the second without text. *)
Definition refusal : content :=
  ContentList [ PartStr "I am unable to grade"; PartDict None;
                PartStr "this essay." ].

(** A final message in four parts: a string, a dict with text, a dict
    without, a string. *)
Definition refusal_in_parts : content :=
  ContentList [ PartStr "I am unable"; PartDict (Some "to grade");
                PartDict None; PartStr "this essay." ].

(** A record the searcher returns when the search times out. *)
Definition smith_timed_out : RefRecord :=
  {| reference := smith; verified := PBool false;
     search_urls := []; notes := PStr "Search timed out." |}.

(** [str.lower] on ASCII text. *)
Fixpoint lower_ascii (s : string) : string :=
  match s with
  | EmptyString => ""
  | String c s' =>
      let n := nat_of_ascii c in
      String (if (65 <=? n) && (n <=? 90) then ascii_of_nat (n + 32) else c)
             (lower_ascii s')
  end.

(** An essay in a PDF of four pages, two of them without text. *)
Definition essay_pages : list (option string) :=
  [ Some "Deep learning is a family of methods."; None; Some "";
    Some ("References" +:+ nl +:+ smith) ].

Definition essay_upload : UploadedFile :=
  {| file_name := "Essay.PDF"; file_pages := essay_pages; file_text := "" |}.

(** A final message with one json block between two sentences. *)
Definition fenced_before : string := "Here is the grading." +:+ nl.
Definition fenced_body : string :=
  nl +:+ "{" +:+ q "total_score" +:+ ": 7}" +:+ nl.
Definition fenced_after : string := nl +:+ "I hope this helps.".

End Scenario.

(* ===================================================================== *)
(** * The program *)
(* ===================================================================== *)

Section Program.

Import PyStr.

(** The outside world.  [json_loads] is [json.loads] on a string;
    [json_dumps] is [json.dumps(_, indent=2)]; [repr] is [str()] of a
    value that is not a string; [llm] is the content of the chat model's
    reply to a prompt and [agent] the content of the last message of an
    agent run; [web k q] is what the [k]-th search of the run, for query
    [q], does (a search that itself raises the executor's
    [TimeoutError] class counts as a [TimedOut]).  The models return a
    message, and only subclasses of [Exception] are raised. *)
Variable json_loads : string -> decoding.
Variable json_dumps : pyval -> string.
Variable repr : pyval -> string.
Variable llm : string -> content.
Variable agent : string -> content.
Variable web : nat -> string -> search_outcome.

(** [str(v)] *)
Definition str (v : pyval) : string :=
  match v with
  | PStr s => s
  | _ => repr v
  end.

(** [str(e)]; only a provider error carries a text that is read. *)
Definition str_exn (e : exn) : string :=
  match e with
  | SearchError cause => cause
  | _ => ""
  end.

(** [json.loads(s)] *)
Definition loads (s : string) : py pyval :=
  match json_loads s with
  | Decodes v => ret v
  | Malformed => raise JSONDecodeError
  | TooDeep => raise RecursionError
  | TooLong => raise ValueError
  end.

(** [time.sleep(seconds)] *)
Definition sleep (seconds : Q) : py unit := emit (EvSleep seconds).

(** [executor.submit(lambda: list(search(query, num_results=3,
    lang="en")))]: the future, by what the submitted search does. *)
Definition submit (query : string) : py search_outcome :=
  fun l => (Return (web (length (searches l)) query), l ++ [EvSearch query]).

(** [future.result(timeout=10)] *)
Definition future_result (future : search_outcome) : py (list string) :=
  match future with
  | Urls urls => ret urls
  | TimedOut | Hangs => raise TimeoutError
  | Failed cause => raise (SearchError cause)
  end.

(** [__exit__] of [with ThreadPoolExecutor(max_workers=1) as executor],
    which is [executor.shutdown(wait=True)]: it joins the worker, and so
    comes back only when the submitted search has ended. *)
Definition shutdown (future : search_outcome) : py unit :=
  match future with
  | Hangs => hang
  | Urls _ | TimedOut | Failed _ => ret tt
  end.

(** The flattening of a message content that [_invoke_llm] and
    [grade_essay] both apply:
    ["\n".join(part if isinstance(part, str) else part.get("text", "")
               for part in content)]. *)
Definition part_text (p : part) : string :=
  match p with
  | PartStr s => s
  | PartDict text => default "" text
  end.

Definition content_text (c : content) : string :=
  match c with
  | ContentStr s => s
  | ContentList parts => join nl (map part_text parts)
  end.

(** The fence selection that [_parse_json_from_text] and [grade_essay]
    both spell out:
<<
    if "```json" in text:
        text = text.split("```json")[1].split("```")[0]
    elif "```" in text:
        text = text.split("```")[1].split("```")[0]
>>  *)
Definition select_fenced (text : string) : py string :=
  if contains "```json" text then
    inner <- item (split "```json" text) 1 ;;
    item (split "```" inner) 0
  else if contains "```" text then
    inner <- item (split "```" text) 1 ;;
    item (split "```" inner) 0
  else ret text.

(** ** bibliography.py *)

Definition _invoke_llm (prompt : string) : py string :=
  emit (EvLlm prompt) ;;
  ret (content_text (llm prompt)).

Definition _parse_json_from_text (text : string) : py pyval :=
  let text := strip text in
  text <- select_fenced text ;;
  loads (strip text).

Definition search_single_reference (reference : string) : py RefRecord :=
  let result :=
    {| reference := reference; verified := PBool false;
       search_urls := []; notes := PStr "" |} in
  try_except
    (awaited <-
       (future <- submit reference ;;
        leaving
          (try_except
             (urls <- future_result future ;; ret (inr urls))
             (fun e =>
                match e with
                | TimeoutError =>
                    Some (ret (inl (set_notes result (PStr "Search timed out."))))
                | _ => None
                end))
          (shutdown future)) ;;
     match awaited with
     | inl returned => ret returned
     | inr urls =>
         sleep (1 # 2) ;;
         let result := set_search_urls result urls in
         match urls with
         | [] =>
             ret (set_notes result
                    (PStr "No search results found. Reference may not exist."))
         | _ :: _ =>
             ret (set_notes result
                    (PStr ("Found " +:+ of_nat (length urls)
                             +:+ " search results.")))
         end
     end)
    (fun e =>
       Some (ret (set_notes result (PStr ("Search failed: " +:+ str_exn e))))).

Definition extract_prompt (essay_text : string) : string :=
  "Extract ALL bibliographic references from the following essay text. "
  +:+ "Return ONLY a JSON array of strings, where each string is one full reference "
  +:+ "exactly as it appears in the essay. If there are no references, return an empty array []."
  +:+ nl +:+ nl
  +:+ "Essay text:" +:+ nl +:+ essay_text.

Definition extract_references_with_llm (essay_text : string) : py (list string) :=
  let prompt := extract_prompt essay_text in
  content <- _invoke_llm prompt ;;
  returned <-
    try_except
      (refs <- _parse_json_from_text content ;;
       match refs with
       | PList items => ret (Some (map str items))
       | _ => ret None
       end)
      (fun e =>
         match e with
         | JSONDecodeError | IndexError => Some (ret None)
         | _ => None
         end) ;;
  match returned with
  | Some refs => ret refs
  | None => ret []
  end.

Definition ref_detail (r : RefRecord) : pyval :=
  PDict [ ("reference", PStr (reference r));
          ("search_urls", PList (map PStr (search_urls r)));
          ("search_notes", notes r) ].

Definition verify_prompt (references : list RefRecord) : string :=
  let ref_details := map ref_detail references in
  "You are verifying bibliographic references. For each reference below, "
  +:+ "I provide the Google search result URLs. Assess whether the reference "
  +:+ "is likely REAL and correctly cited (correct authors, year, title, journal/publisher). "
  +:+ "Be skeptical " +:+ utf8 [195; 162; 226; 130; 172; 226; 128; 157]
  +:+ " if the URLs don't clearly confirm the reference, mark it unverified."
  +:+ nl +:+ nl
  +:+ "References:" +:+ nl +:+ json_dumps (PList ref_details) +:+ nl +:+ nl
  +:+ "Respond with a JSON array where each element has:" +:+ nl
  +:+ "  {" +:+ dq +:+ "reference" +:+ dq +:+ ": " +:+ dq +:+ "..." +:+ dq
  +:+ ", " +:+ dq +:+ "verified" +:+ dq +:+ ": true/false, "
  +:+ dq +:+ "notes" +:+ dq +:+ ": " +:+ dq +:+ "explanation" +:+ dq +:+ "}" +:+ nl
  +:+ "Return ONLY the JSON array.".

(** [{r["reference"]: r for r in llm_results}], in the view of its
    string keys: a key that is hashable but not a string is stored by
    Python and can never equal the string a record is looked up by; a
    list or dict key is unhashable. *)
Definition store (m : gmap string pyval) (key value : pyval) : py (gmap string pyval) :=
  match key with
  | PStr k => ret (<[k := value]> m)
  | PList _ | PDict _ => raise TypeError
  | PNone | PBool _ | PInt _ | PFloat _ => ret m
  end.

Fixpoint build_llm_map (llm_results : list pyval) (m : gmap string pyval)
  : py (gmap string pyval) :=
  match llm_results with
  | [] => ret m
  | r :: rest =>
      key <- subscript r "reference" ;;
      m' <- store m key r ;;
      build_llm_map rest m'
  end.

(** The body of the merging loop, for one [ref]. *)
Definition merge_verdict (llm_map : gmap string pyval) (ref : RefRecord) : py RefRecord :=
  match llm_map !! reference ref with
  | Some llm_ref =>
      v <- get llm_ref "verified" (PBool false) ;;
      let ref := set_verified ref v in
      n <- get llm_ref "notes" (notes ref) ;;
      ret (set_notes ref n)
  | None => ret ref
  end.

Definition PARSE_MARKER : string := " (LLM verification failed to parse)".

(** The body of the loop of the [except] clause, for one [ref]. *)
Definition mark_unparsed (ref : RefRecord) : py RefRecord :=
  n <- iadd_str (notes ref) PARSE_MARKER ;;
  ret (set_notes ref n).

(** The records are distinct dicts mutated in place; the list returned
    is the argument list, given here with its records as they are when
    the call returns. *)
Definition verify_references_with_llm (references : list RefRecord)
  : py (list RefRecord) :=
  let refs_with_urls :=
    List.filter (fun r => negb (bool_decide (search_urls r = []))) references in
  match refs_with_urls with
  | [] => ret references
  | _ :: _ =>
      let prompt := verify_prompt references in
      content <- _invoke_llm prompt ;;
      try_except
        (llm_results <- _parse_json_from_text content ;;
         match llm_results with
         | PList items =>
             llm_map <- build_llm_map items ∅ ;;
             for_each (merge_verdict llm_map) references
         | _ => ret references
         end)
        (fun e =>
           match e with
           | JSONDecodeError | IndexError =>
               Some (for_each mark_unparsed references)
           | _ => None
           end)
  end.

Definition verify_bibliography (essay_text : string) : py (list RefRecord) :=
  ref_strings <- extract_references_with_llm essay_text ;;
  match ref_strings with
  | [] => ret []
  | _ :: _ =>
      search_results <- for_each search_single_reference ref_strings ;;
      verified_results <- verify_references_with_llm search_results ;;
      ret verified_results
  end.

(** ** tools.py *)

(** The loop [for i, url in enumerate(results, 1): result_text +=
    f"  {i}. {url}\n"]. *)
Fixpoint numbered (i : nat) (results : list string) (result_text : string) : string :=
  match results with
  | [] => result_text
  | url :: rest =>
      numbered (S i) rest
        (result_text +:+ "  " +:+ of_nat i +:+ ". " +:+ url +:+ nl)
  end.

Definition search_reference (reference : string) : py string :=
  try_except
    (awaited <-
       (future <- submit reference ;;
        leaving
          (try_except
             (results <- future_result future ;; ret (inr results))
             (fun e =>
                match e with
                | TimeoutError =>
                    Some (ret (inl ("Search timed out for '" +:+ reference
                                      +:+ "'. Could not verify this reference.")))
                | _ => None
                end))
          (shutdown future)) ;;
     match awaited with
     | inl returned => ret returned
     | inr results =>
         sleep (1 # 2) ;;
         match results with
         | [] =>
             ret ("NO RESULTS FOUND for: '" +:+ reference +:+ "'. "
                    +:+ "This reference may not exist or may be incorrectly cited.")
         | _ :: _ =>
             let result_text :=
               "Search results for: '" +:+ reference +:+ "':" +:+ nl in
             let result_text := numbered 1 results result_text in
             ret (result_text +:+ nl
                    +:+ "Based on these results, assess whether the reference is real "
                    +:+ "and correctly cited (authors, year, title, journal).")
         end
     end)
    (fun e =>
       Some (ret ("Search failed for '" +:+ reference +:+ "': " +:+ str_exn e
                    +:+ ". Could not verify this reference."))).

(** ** agent.py *)

(** [create_grading_agent().invoke(...)["messages"][-1].content] *)
Definition agent_invoke (prompt : string) : py content :=
  emit (EvAgent prompt) ;;
  ret (agent prompt).

Definition raw_text_envelope (final_message : string) : pyval :=
  PDict [ ("raw_response", PStr final_message); ("parse_error", PBool true) ].

Definition grade_essay (criteria_text essay_text : string) : py pyval :=
  let prompt := Prompts.GRADING_PROMPT_format criteria_text essay_text in
  final_message <- agent_invoke prompt ;;
  let final_message := content_text final_message in
  try_except
    (let text := final_message in
     text <- select_fenced text ;;
     loads (strip text))
    (fun e =>
       match e with
       | JSONDecodeError | IndexError => Some (ret (raw_text_envelope final_message))
       | _ => None
       end).

(* ===================================================================== *)
(** ** The rest of the code: tools.py, app.py and the command line *)
(* ===================================================================== *)

(** More of the outside world: [lower] is [str.lower]; [float_truth] is
    [bool()] of the float with a given lexeme; [elapsed] is
    [int(time.time() - start_time)] of a grading; [reader path] is what
    reading the file does, [PdfReader(path)] and then [extract_text()]
    on each of its pages: one of them raises (no such file, no PDF, a
    page that cannot be read), or the reading gives the text of each
    page, [None] or the empty string for a page without text. *)
Variable lower : string -> string.
Variable float_truth : string -> bool.
Variable elapsed : Z.
Variable reader : string -> opening (list (option string)).

(** [bool(v)] *)
Definition truthy (v : pyval) : bool :=
  match v with
  | PNone => false
  | PBool b => b
  | PInt z => negb (z =? 0)%Z
  | PFloat lexeme => float_truth lexeme
  | PStr s => negb (bool_decide (s = ""))
  | PList items => match items with [] => false | _ :: _ => true end
  | PDict items => match items with [] => false | _ :: _ => true end
  end.

(** [str(z)] for an [int]. *)
Definition str_int (z : Z) : string := NilZero.string_of_int (Z.to_int z).

(** [len(s)]: the code points of [s], one per byte that does not
    continue a UTF-8 sequence. *)
Fixpoint len (s : string) : nat :=
  match s with
  | EmptyString => 0
  | String c s' =>
      let b := nat_of_ascii c in
      if (128 <=? b) && (b <? 192) then len s' else S (len s')
  end.

(** [s.endswith(suffix)] *)
Definition endswith (suffix s : string) : bool :=
  startswith (rev suffix) (rev s).

(** *** tools.py *)

(** The loop of [extract_pdf_text] over [reader.pages], with the list
    [pages] it appends to. *)
Fixpoint collect_pages (reader_pages : list (option string)) (pages : list string)
  : list string :=
  match reader_pages with
  | [] => pages
  | page :: rest =>
      match page with
      | Some text =>
          if bool_decide (text = "") then collect_pages rest pages
          else collect_pages rest (pages ++ [text])
      | None => collect_pages rest pages
      end
  end.

Definition extract_pdf_text (reader_pages : list (option string)) : string :=
  join (nl +:+ nl) (collect_pages reader_pages []).

Definition extract_text_from_file (uploaded_file : UploadedFile) : string :=
  let name := lower (file_name uploaded_file) in
  if endswith ".pdf" name then extract_pdf_text (file_pages uploaded_file)
  else file_text uploaded_file.

(** *** app.py, from the check of the inputs to the check of the result *)

(** The caption of the elapsed time. *)
Definition caption (seconds_elapsed : Z) : string :=
  let minutes := (seconds_elapsed / 60)%Z in
  let seconds := (seconds_elapsed mod 60)%Z in
  if (0 <? minutes)%Z then
    "Grading completed in " +:+ str_int minutes +:+ "m "
      +:+ str_int seconds +:+ "s"
  else "Grading completed in " +:+ str_int seconds +:+ "s".

(** [criteria_text_input and criteria_text_input.strip()], as a truth
    value. *)
Definition pasted (criteria_text_input : option string) : bool :=
  match criteria_text_input with
  | Some text =>
      negb (bool_decide (text = "")) && negb (bool_decide (strip text = ""))
  | None => false
  end.

(** The script from [has_criteria] on, for the values of the widgets and
    whether the button is clicked in this run: the calls to Streamlit it
    makes, how it ends, and the log. *)
Definition page
    (criteria_text_input : option string)
    (criteria_file essay_file : option UploadedFile) (clicked : bool)
  : log -> (list st_call * page_end) * log :=
  fun l =>
    let has_criteria :=
      pasted criteria_text_input || bool_decide (is_Some criteria_file) in
    match has_criteria, essay_file with
    | true, Some essay_upload =>
        let calls := [StButton "Grade Essay"] in
        if clicked then
          let calls :=
            calls ++
            [StSpinner
               ("Grading in progress " +:+ utf8 [226; 128; 148]
                  +:+ " the agent is reading, evaluating, and verifying bibliography."
                  +:+ " This may take a few minutes...")] in
          let criteria :=
            if pasted criteria_text_input
            then Return (strip (default "" criteria_text_input))
            else match criteria_file with
                 | Some upload => Return (extract_text_from_file upload)
                 | None => Raise AttributeError
                 end in
          match criteria with
          | Raise e => (calls, PageRaises e, l)
          | Hang => (calls, PageHangs, l)
          | Return criteria_text =>
              let essay_text := extract_text_from_file essay_upload in
              if bool_decide (strip criteria_text = "") then
                (calls ++
                 [StError "Could not extract text from the criteria. Please check your input."],
                 Stops, l)
              else if bool_decide (strip essay_text = "") then
                (calls ++
                 [StError "Could not extract text from the essay file. Please check the file."],
                 Stops, l)
              else
                match grade_essay criteria_text essay_text l with
                | (Raise e, l') => (calls, PageRaises e, l')
                | (Hang, l') => (calls, PageHangs, l')
                | (Return result, l') =>
                    let calls := calls ++ [StCaption (caption elapsed)] in
                    match fst (get result "parse_error" PNone l') with
                    | Raise e => (calls, PageRaises e, l')
                    | Hang => (calls, PageHangs, l')
                    | Return flag =>
                        if truthy flag then
                          let calls :=
                            calls ++
                            [StWarning "The agent returned a non-structured response. Showing raw output:"] in
                          match fst (get result "raw_response" (PStr "No response") l') with
                          | Raise e => (calls, PageRaises e, l')
                          | Hang => (calls, PageHangs, l')
                          | Return raw => (calls ++ [StMarkdown raw], Stops, l')
                          end
                        else (calls, Displays result, l')
                    end
                end
          end
        else (calls, FallsThrough, l)
    | _, _ =>
        ([StInfo "Please provide grading criteria (paste or upload) and upload a student essay to begin."],
         FallsThrough, l)
    end.

(** *** bibliography.py run as a program *)

(** The dict of a record, for [json.dumps]. *)
Definition record_dict (r : RefRecord) : pyval :=
  PDict [ ("reference", PStr (reference r));
          ("verified", verified r);
          ("search_urls", PList (map PStr (search_urls r)));
          ("notes", notes r) ].

(** The three [print] calls for one record. *)
Definition report (r : RefRecord) : list string :=
  let status := if truthy (verified r) then "VERIFIED" else "UNVERIFIED" in
  [ "[" +:+ status +:+ "] " +:+ reference r;
    "  URLs: " +:+ repr (PList (map PStr (search_urls r)));
    "  Notes: " +:+ str (notes r) +:+ nl ].

(** The block under [if __name__ == "__main__"], for [sys.argv]: the
    arguments of its [print] calls, how it ends, and the log. *)
Definition main (argv : list string) : log -> (list string * ending) * log :=
  fun l =>
    if length argv <? 2 then
      ([ "Usage:";
         "  python bibliography.py 'Author (2020). Title. Journal.'";
         "  python bibliography.py --essay path/to/essay.pdf" ],
       Exits 1, l)
    else
      match argv !! 1 with
      | None => ([], Raises IndexError, l)
      | Some first =>
          if bool_decide (first = "--essay") then
            match argv !! 2 with
            | None => ([], Raises IndexError, l)
            | Some pdf_path =>
                match reader pdf_path with
                | Refuses e => ([], Raises e, l)
                | Opens pages =>
                    let text :=
                      join (nl +:+ nl) (map (fun p => default "" p) pages) in
                    let printed :=
                      [ "Extracted " +:+ of_nat (len text) +:+ " characters from "
                          +:+ pdf_path;
                        "Running full bibliography verification pipeline..." +:+ nl ] in
                    match verify_bibliography text l with
                    | (Raise e, l') => (printed, Raises e, l')
                    | (Hang, l') => (printed, NeverEnds, l')
                    | (Return results, l') =>
                        match results with
                        | [] =>
                            (printed ++ ["No references found in the essay."], Ends, l')
                        | _ :: _ =>
                            (printed ++ concat (map report results), Ends, l')
                        end
                    end
                end
            end
          else
            let ref := join " " (List.skipn 1 argv) in
            let printed := ["Searching for: " +:+ ref +:+ nl] in
            match search_single_reference ref l with
            | (Raise e, l') => (printed, Raises e, l')
            | (Hang, l') => (printed, NeverEnds, l')
            | (Return result, l') =>
                (printed ++ [json_dumps (record_dict result)], Ends, l')
            end
      end.

(** ** Notions the properties are stated with *)

(** [s.split(sep)[0]]: [s] up to its first [sep], all of [s] when [sep]
    does not occur. *)
Definition before (sep s : string) : string :=
  match partition sep s with
  | Some (a, _) => a
  | None => s
  end.

(** [a] and [b] are the parts of [s] around its first occurrence of [sep]. *)
Definition splits_at_first (sep s a b : string) : Prop :=
  s = a +:+ sep +:+ b
  /\ forall a' b', s = a' +:+ sep +:+ b' -> String.length a <= String.length a'.

(** [a] is [s] cut at its first [sep], or [s] itself when it has none. *)
Definition cut_at (sep s a : string) : Prop :=
  (exists b, splits_at_first sep s a b) \/ (contains sep s = false /\ a = s).

(** The text that the fence selection hands to the JSON decoder. *)
Definition fenced_payload (text : string) : string :=
  match partition "```json" text with
  | Some (_, rest) => before "```" (before "```json" rest)
  | None =>
      match partition "```" text with
      | Some (_, rest) => before "```" rest
      | None => text
      end
  end.

(** [v] is a dict whose ["reference"] entry is the string [k]. *)
Definition names (k : string) (v : pyval) : bool :=
  match v with
  | PDict d =>
      match dict_get d "reference" with
      | Some (PStr k') => bool_decide (k' = k)
      | _ => false
      end
  | _ => false
  end.

(** The verdict a record with reference [k] is merged with: the last
    element of the reply that names [k]. *)
Definition verdict_for (verdicts : list pyval) (k : string) : option pyval :=
  List.find (names k) (List.rev verdicts).

(** A verdict the merge can take in: a dict with a hashable ["reference"]. *)
Definition is_verdict (v : pyval) : bool :=
  match v with
  | PDict d =>
      match dict_get d "reference" with
      | Some (PList _ | PDict _) | None => false
      | Some _ => true
      end
  | _ => false
  end.

(** The dict that the comprehension builds from well-formed verdicts. *)
Definition llm_map_of (verdicts : list pyval) (m : gmap string pyval)
  : gmap string pyval :=
  fold_left
    (fun m v =>
       match v with
       | PDict d =>
           match dict_get d "reference" with
           | Some (PStr k) => <[k := v]> m
           | _ => m
           end
       | _ => m
       end)
    verdicts m.

(** A record after the merge with the dict [llm_map]. *)
Definition merged (llm_map : gmap string pyval) (r : RefRecord) : RefRecord :=
  match llm_map !! reference r with
  | Some (PDict d) =>
      {| reference := reference r;
         verified := default (PBool false) (dict_get d "verified");
         search_urls := search_urls r;
         notes := default (notes r) (dict_get d "notes") |}
  | _ => r
  end.

(** The text of the judge's reply to the verification prompt. *)
Definition verifier_reply (references : list RefRecord) : string :=
  content_text (llm (verify_prompt references)).

(** What the decoder does with the trimmed selection of a reply. *)
Definition decoded (reply : string) : decoding :=
  json_loads (strip (fenced_payload reply)).

(** What a call does when [json.loads] raises inside it and no
    [except] clause of the call takes the exception. *)
Definition decoder_error (d : decoding) : option exn :=
  match d with
  | TooDeep => Some RecursionError
  | TooLong => Some ValueError
  | Decodes _ | Malformed => None
  end.

(** The index of the first reference whose search never ends, when the
    searches of [refs] are made in order after [k] earlier ones. *)
Fixpoint first_hang (k : nat) (refs : list string) : option nat :=
  match refs with
  | [] => None
  | ref :: rest =>
      match web k ref with
      | Hangs => Some 0
      | Urls _ | TimedOut | Failed _ => S <$> first_hang (S k) rest
      end
  end.

Definition has_urls (references : list RefRecord) : bool :=
  existsb (fun r => negb (bool_decide (search_urls r = []))) references.

(** Every value of the dict is itself a dict. *)
Definition all_dicts (m : gmap string pyval) : Prop :=
  forall k v, m !! k = Some v -> exists d, v = PDict d.

(** The exception the dict comprehension raises on a reply, if any: the
    first element that is no dict ([TypeError]), has no ["reference"]
    ([KeyError]) or has an unhashable one ([TypeError]). *)
Fixpoint first_failure (verdicts : list pyval) : option exn :=
  match verdicts with
  | [] => None
  | PDict d :: rest =>
      match dict_get d "reference" with
      | None => Some KeyError
      | Some (PList _ | PDict _) => Some TypeError
      | Some _ => first_failure rest
      end
  | _ :: _ => Some TypeError
  end.

(** The notes of every record are a string, as the searcher leaves them. *)
Definition notes_are_text (references : list RefRecord) : bool :=
  forallb (fun r => match notes r with PStr _ => true | _ => false end) references.

(** A record with the marker of a failed decoding appended to its notes. *)
Definition marked (r : RefRecord) : RefRecord :=
  match notes r with
  | PStr s => set_notes r (PStr (s +:+ PARSE_MARKER))
  | _ => r
  end.

(** [c in s], for a character. *)
Fixpoint occurs (c : ascii) (s : string) : bool :=
  match s with
  | EmptyString => false
  | String x s' => bool_decide (x = c) || occurs c s'
  end.

(** [s[-1]], [d] for the empty string. *)
Fixpoint last_of (d : ascii) (s : string) : ascii :=
  match s with
  | EmptyString => d
  | String x s' => last_of x s'
  end.

(** [s] is a run of tokens of [toks]. *)
Inductive blank (toks : list string) : string -> Prop :=
| blank_empty : blank toks ""
| blank_token t s : In t toks -> blank toks s -> blank toks (t +:+ s).

(** Three checks on a list of tokens: no token is empty; no token starts
    another one; the first character of a token is never a later
    character of a token. *)
Definition tokens_nonempty (toks : list string) : bool :=
  forallb (fun t => negb (bool_decide (t = ""))) toks.

Definition tokens_prefix_free (toks : list string) : bool :=
  forallb
    (fun t =>
       forallb (fun t' => implb (startswith t' t) (bool_decide (t' = t))) toks)
    toks.

Definition tokens_heads_apart (toks : list string) : bool :=
  forallb
    (fun t =>
       match t with
       | String h _ =>
           forallb
             (fun t' =>
                match t' with
                | String _ later => negb (occurs h later)
                | EmptyString => true
                end)
             toks
       | EmptyString => true
       end)
    toks.

(** No token holds the character [c]. *)
Definition tokens_avoid (c : ascii) (toks : list string) : bool :=
  forallb (fun t => negb (occurs c t)) toks.

(** The texts [extract_pdf_text] joins: those of the pages that have
    one, in page order. *)
Fixpoint page_texts (reader_pages : list (option string)) : list string :=
  match reader_pages with
  | [] => []
  | Some text :: rest =>
      if bool_decide (text = "") then page_texts rest else text :: page_texts rest
  | None :: rest => page_texts rest
  end.

(** A page without text. *)
Definition textless (page : option string) : bool :=
  match page with
  | Some text => bool_decide (text = "")
  | None => true
  end.

(** The line of the tool's summary for the URL of rank [i]. *)
Definition numbered_line (i : nat) (url : string) : string :=
  "  " +:+ of_nat i +:+ ". " +:+ url +:+ nl.

(** The lines for [urls], numbered from [i]. *)
Fixpoint listing (i : nat) (urls : list string) : string :=
  match urls with
  | [] => ""
  | url :: rest => numbered_line i url +:+ listing (S i) rest
  end.

Definition is_llm (e : event) : bool :=
  match e with EvLlm _ => true | _ => false end.

(** What [search_single_reference] gives for [ref], by what its search
    does. *)
Definition searched (ref : string) (outcome : search_outcome) : result RefRecord :=
  let record (urls : list string) (note : string) :=
    Return {| reference := ref; verified := PBool false;
              search_urls := urls; notes := PStr note |} in
  match outcome with
  | Urls [] => record [] "No search results found. Reference may not exist."
  | Urls urls =>
      record urls ("Found " +:+ of_nat (length urls) +:+ " search results.")
  | TimedOut => record [] "Search timed out."
  | Failed cause => record [] ("Search failed: " +:+ cause)
  | Hangs => Hang
  end.

(** The flattening of a message content in the words of the
    specification: the textual parts of a list, concatenated in order. *)
Definition concatenated_parts (c : content) : string :=
  match c with
  | ContentStr s => s
  | ContentList parts =>
      foldr (fun p rest =>
               match p with
               | PartStr s => s +:+ rest
               | PartDict (Some text) => text +:+ rest
               | PartDict None => rest
               end) "" parts
  end.

(** The exceptions that leave the verifier and the pipeline. *)
Definition uncaught (e : exn) : Prop :=
  e = TypeError \/ e = KeyError \/ e = RecursionError \/ e = ValueError.

(** The log of one search, by what the search does. *)
Definition search_log (ref : string) (outcome : search_outcome) : log :=
  match outcome with
  | Urls _ => [EvSearch ref; EvSleep (1 # 2)]
  | TimedOut | Failed _ | Hangs => [EvSearch ref]
  end.

(** ** Facts about strings *)

Lemma str_app_nil_l (s : string) : "" +:+ s = s.
Proof. reflexivity. Qed.

Lemma str_app_cons (c : ascii) (a b : string) : String c a +:+ b = String c (a +:+ b).
Proof. reflexivity. Qed.

Lemma str_app_nil_r (s : string) : s +:+ "" = s.
Proof. induction s as [|c s IH]; [reflexivity|]. rewrite str_app_cons. by rewrite IH. Qed.

Lemma str_app_assoc (a b c : string) : (a +:+ b) +:+ c = a +:+ b +:+ c.
Proof.
  induction a as [|x a IH]; [reflexivity|].
  rewrite !str_app_cons. by rewrite IH.
Qed.

Lemma str_length_app (a b : string) :
  String.length (a +:+ b) = String.length a + String.length b.
Proof.
  induction a as [|x a IH]; [reflexivity|].
  rewrite str_app_cons. cbn. by rewrite IH.
Qed.

Lemma drop_app_length (a b : string) : drop (String.length a) (a +:+ b) = b.
Proof. induction a as [|x a IH]; [by destruct b|]. rewrite str_app_cons. exact IH. Qed.

Lemma startswith_spec (p s : string) :
  startswith p s = true <-> s = p +:+ drop (String.length p) s.
Proof.
  revert s. induction p as [|a p IH]; intros s.
  - cbn. split; [|done]. intros _. by destruct s.
  - destruct s as [|b s]; cbn; [split; [done|discriminate]|].
    rewrite str_app_cons. case_decide as Hab.
    + subst b. rewrite IH. split; [intros H; by rewrite <- H|].
      intros H. by injection H.
    + split; [done|]. intros H. by injection H.
Qed.

Lemma startswith_app (p r : string) : startswith p (p +:+ r) = true.
Proof. apply startswith_spec. by rewrite drop_app_length. Qed.

Lemma startswith_inv (p s : string) :
  startswith p s = true -> exists r, s = p +:+ r.
Proof. intros H. apply startswith_spec in H. eauto. Qed.

Lemma partition_split (sep s a b : string) :
  partition sep s = Some (a, b) -> s = a +:+ sep +:+ b.
Proof.
  revert a b. induction s as [|c s IH]; intros a b; cbn.
  - destruct (startswith sep "") eqn:E; [|done].
    intros [= <- <-]. by apply startswith_spec in E.
  - destruct (startswith sep (String c s)) eqn:E.
    + intros [= <- <-]. by apply startswith_spec in E.
    + destruct (partition sep s) as [[a0 b0]|]; [|done].
      intros [= <- <-]. rewrite str_app_cons. f_equal. by apply IH.
Qed.

Lemma partition_first (sep s a b : string) :
  partition sep s = Some (a, b) ->
  forall a' b', s = a' +:+ sep +:+ b' -> String.length a <= String.length a'.
Proof.
  revert a b. induction s as [|c s IH]; intros a b; cbn.
  - destruct (startswith sep "") eqn:E; [|done].
    intros [= <- <-] a' b' _. cbn. lia.
  - destruct (startswith sep (String c s)) eqn:E.
    + intros [= <- <-] a' b' _. cbn. lia.
    + destruct (partition sep s) as [[a0 b0]|] eqn:P; [|done].
      intros [= <- <-] a' b' H. destruct a' as [|x a'].
      * rewrite str_app_nil_l in H. rewrite H, startswith_app in E. done.
      * rewrite str_app_cons in H. injection H as -> H. cbn.
        specialize (IH a0 b0 eq_refl a' b' H). lia.
Qed.

Lemma partition_splits (sep s a b : string) :
  partition sep s = Some (a, b) -> splits_at_first sep s a b.
Proof. intros H. split; eauto using partition_split, partition_first. Qed.

Lemma partition_contains (sep s : string) :
  contains sep s = match partition sep s with Some _ => true | None => false end.
Proof.
  induction s as [|c s IH]; cbn.
  - by destruct (startswith sep "").
  - destruct (startswith sep (String c s)); cbn; [done|].
    rewrite IH. by destruct (partition sep s) as [[a b]|].
Qed.

Lemma contains_true (sep s : string) :
  contains sep s = true -> exists a b, partition sep s = Some (a, b).
Proof.
  rewrite partition_contains. destruct (partition sep s) as [[a b]|]; [eauto|done].
Qed.

Lemma contains_false (sep s : string) :
  contains sep s = false -> partition sep s = None.
Proof.
  rewrite partition_contains. by destruct (partition sep s).
Qed.

Lemma contains_app (sep a b : string) : contains sep (a +:+ sep +:+ b) = true.
Proof.
  induction a as [|c a IH].
  - rewrite str_app_nil_l. destruct (sep +:+ b) eqn:E; cbn; rewrite <- E;
      by rewrite startswith_app.
  - rewrite str_app_cons. cbn. rewrite IH. apply orb_true_r.
Qed.

Lemma partition_length (sep s a b : string) :
  partition sep s = Some (a, b) ->
  String.length s = String.length a + String.length sep + String.length b.
Proof.
  intros H%partition_split. subst s. rewrite !str_length_app. lia.
Qed.

Lemma split_rounds_enough (sep : string) (n m : nat) (s : string) :
  sep <> "" -> String.length s <= n -> String.length s <= m ->
  split_rounds n sep s = split_rounds m sep s.
Proof.
  intros Hsep. revert m s. induction n as [|n IH]; intros m s Hn Hm.
  - destruct s; [|cbn in Hn; lia].
    destruct m; cbn; destruct (startswith sep "") eqn:E; try done;
      apply startswith_spec in E; destruct sep; done.
  - destruct m as [|m].
    + destruct s; [|cbn in Hm; lia].
      cbn; destruct (startswith sep "") eqn:E; try done;
      apply startswith_spec in E; destruct sep; done.
    + cbn [split_rounds]. destruct (partition sep s) as [[a b]|] eqn:P; [|done].
      f_equal. apply partition_length in P.
      assert (0 < String.length sep) by (destruct sep; [done|cbn; lia]).
      apply IH; lia.
Qed.

Lemma split_unfold (sep s : string) :
  sep <> "" ->
  split sep s =
    match partition sep s with
    | None => [s]
    | Some (a, b) => a :: split sep b
    end.
Proof.
  intros Hsep. unfold split.
  destruct (String.length s) as [|n] eqn:Hlen.
  - destruct s; [|done]. cbn. destruct (startswith sep "") eqn:E; [|done].
    apply startswith_spec in E. destruct sep; done.
  - cbn [split_rounds]. destruct (partition sep s) as [[a b]|] eqn:P; [|done].
    f_equal. apply partition_length in P.
    assert (0 < String.length sep) by (destruct sep; [done|cbn; lia]).
    apply split_rounds_enough; [done|lia..].
Qed.

Lemma split_0 (sep s : string) :
  sep <> "" -> split sep s !! 0 = Some (before sep s).
Proof.
  intros Hsep. rewrite split_unfold by done. unfold before.
  by destruct (partition sep s) as [[a b]|].
Qed.

Lemma split_1 (sep s : string) :
  sep <> "" ->
  split sep s !! 1 =
    match partition sep s with
    | Some (_, b) => Some (before sep b)
    | None => None
    end.
Proof.
  intros Hsep. rewrite split_unfold by done.
  destruct (partition sep s) as [[a b]|]; [|done].
  cbn. by apply split_0.
Qed.

(** ** Facts about the fence selection *)

Lemma partition_clean (sep s a b : string) :
  sep <> "" -> partition sep s = Some (a, b) -> contains sep a = false.
Proof.
  intros Hsep P. destruct (contains sep a) eqn:E; [|done].
  apply contains_true in E as (x & y & Q).
  apply partition_split in Q. pose proof (partition_split _ _ _ _ P) as Hs.
  pose proof (partition_first _ _ _ _ P x (y +:+ sep +:+ b)) as Hmin.
  subst a. rewrite !str_app_assoc in Hs. specialize (Hmin Hs).
  rewrite !str_length_app in Hmin.
  assert (0 < String.length sep); [|lia].
  destruct sep; [done|cbn; lia].
Qed.

Lemma before_clean (sep s : string) :
  contains sep s = false -> before sep s = s.
Proof. intros H. unfold before. by rewrite (contains_false _ _ H). Qed.

Lemma before_before (sep s : string) :
  sep <> "" -> before sep (before sep s) = before sep s.
Proof.
  intros Hsep. unfold before at 2 3.
  destruct (partition sep s) as [[a b]|] eqn:P.
  - apply before_clean. eauto using partition_clean.
  - unfold before. by rewrite P.
Qed.

Lemma before_cut (sep s : string) : cut_at sep s (before sep s).
Proof.
  unfold before, cut_at. destruct (partition sep s) as [[a b]|] eqn:P.
  - left. eauto using partition_splits.
  - right. split; [|done]. rewrite partition_contains. by rewrite P.
Qed.

Lemma contains_weaken (p q s : string) :
  contains (p +:+ q) s = true -> contains p s = true.
Proof.
  intros H. apply contains_true in H as (a & b & P).
  apply partition_split in P. subst s. rewrite str_app_assoc. apply contains_app.
Qed.

Lemma select_fenced_payload (text : string) (l : log) :
  select_fenced text l = (Return (fenced_payload text), l).
Proof.
  unfold select_fenced, fenced_payload.
  destruct (contains "```json" text) eqn:EJ.
  - apply contains_true in EJ as (pre & rest & P). rewrite P.
    unfold bind, item. rewrite split_1, P by done. unfold ret.
    by rewrite split_0.
  - rewrite (contains_false _ _ EJ).
    destruct (contains "```" text) eqn:EF.
    + apply contains_true in EF as (pre & rest & P). rewrite P.
      unfold bind, item. rewrite split_1, P by done. unfold ret.
      rewrite split_0 by done. by rewrite before_before.
    + by rewrite (contains_false _ _ EF).
Qed.

Lemma fenced_payload_cases (text : string) :
  if contains "```json" text then
    exists pre rest piece,
      splits_at_first "```json" text pre rest
      /\ cut_at "```json" rest piece
      /\ cut_at "```" piece (fenced_payload text)
  else if contains "```" text then
    exists pre rest,
      splits_at_first "```" text pre rest
      /\ cut_at "```" rest (fenced_payload text)
  else fenced_payload text = text.
Proof.
  unfold fenced_payload.
  destruct (contains "```json" text) eqn:EJ.
  - apply contains_true in EJ as (pre & rest & P). rewrite P.
    exists pre, rest, (before "```json" rest).
    eauto using partition_splits, before_cut.
  - rewrite (contains_false _ _ EJ).
    destruct (contains "```" text) eqn:EF.
    + apply contains_true in EF as (pre & rest & P). rewrite P.
      exists pre, rest. eauto using partition_splits, before_cut.
    + by rewrite (contains_false _ _ EF).
Qed.

Lemma fenced_payload_plain (text : string) :
  contains "```" text = false -> fenced_payload text = text.
Proof.
  intros EF. pose proof (fenced_payload_cases text) as H.
  destruct (contains "```json" text) eqn:EJ.
  - apply (contains_weaken "```" "json") in EJ. congruence.
  - by rewrite EF in H.
Qed.

(** ** Facts about trimming *)

Lemma rev_onto_app (s acc : string) : rev_onto s acc = rev s +:+ acc.
Proof.
  unfold rev. revert acc. induction s as [|c s IH]; intros acc; [done|].
  cbn. rewrite IH, (IH (String c "")). by rewrite str_app_assoc.
Qed.

Lemma rev_cons (c : ascii) (s : string) : rev (String c s) = rev s +:+ String c "".
Proof. unfold rev at 1. cbn. apply rev_onto_app. Qed.

Lemma rev_app (a b : string) : rev (a +:+ b) = rev b +:+ rev a.
Proof.
  induction a as [|c a IH].
  - by rewrite str_app_nil_l, str_app_nil_r.
  - rewrite str_app_cons, !rev_cons, IH. by rewrite str_app_assoc.
Qed.

Lemma rev_rev (s : string) : rev (rev s) = s.
Proof.
  induction s as [|c s IH]; [done|].
  rewrite rev_cons, rev_app, IH. done.
Qed.

Lemma rev_length (s : string) : String.length (rev s) = String.length s.
Proof.
  induction s as [|c s IH]; [done|].
  rewrite rev_cons, str_length_app, IH. cbn. lia.
Qed.

Lemma str_app_inv (x y u v : string) :
  x +:+ y = u +:+ v ->
  (exists w, u = x +:+ w /\ y = w +:+ v) \/ (exists w, x = u +:+ w /\ v = w +:+ y).
Proof.
  revert u. induction x as [|c x IH]; intros u H.
  - left. exists u. by rewrite str_app_nil_l in *.
  - destruct u as [|d u].
    + right. exists (String c x). by rewrite str_app_nil_l in *.
    + rewrite !str_app_cons in H. injection H as -> H.
      destruct (IH _ H) as [(w & -> & ->)|(w & -> & ->)]; [left|right];
        exists w; by rewrite str_app_cons.
Qed.

Lemma blank_app (toks : list string) (a b : string) :
  blank toks a -> blank toks b -> blank toks (a +:+ b).
Proof.
  induction 1 as [|t s Ht _ IH]; intros Hb; [done|].
  rewrite str_app_assoc. constructor; auto.
Qed.

Lemma blank_rev (toks : list string) (s : string) :
  blank toks s -> blank (map rev toks) (rev s).
Proof.
  induction 1 as [|t s Ht _ IH]; [constructor|].
  rewrite rev_app. apply blank_app; [done|].
  rewrite <- (str_app_nil_r (rev t)). constructor; [|constructor].
  by apply in_map.
Qed.

Lemma blank_occurs (c : ascii) (toks : list string) (s : string) :
  tokens_avoid c toks = true -> blank toks s -> occurs c s = false.
Proof.
  intros Hc. induction 1 as [|t s Ht _ IH]; [done|].
  unfold tokens_avoid in Hc. rewrite forallb_forall in Hc.
  specialize (Hc t Ht). apply negb_true_iff in Hc.
  clear Ht. induction t as [|x t IHt]; [done|].
  rewrite str_app_cons. cbn in *. apply orb_false_iff in Hc as [-> Hc]. auto.
Qed.

Lemma chop_sound (toks : list string) (s s' : string) :
  chop toks s = Some s' -> exists t, In t toks /\ s = t +:+ s'.
Proof.
  induction toks as [|t ts IH]; cbn; [done|].
  destruct (startswith t s) eqn:E.
  - intros [= <-]. exists t. split; [by left|]. by apply startswith_spec.
  - intros H. destruct (IH H) as (t' & Hin & Hs). eauto.
Qed.

Lemma chop_complete (toks : list string) (t s : string) :
  In t toks -> startswith t s = true -> chop toks s <> None.
Proof.
  induction toks as [|t0 ts IH]; cbn; [done|].
  intros [->|Hin] Hs.
  - by rewrite Hs.
  - destruct (startswith t0 s); [done|]. by apply IH.
Qed.

Lemma startswith_comparable (a b s : string) :
  startswith a s = true -> startswith b s = true ->
  String.length a <= String.length b -> startswith a b = true.
Proof.
  revert b s. induction a as [|x a IH]; intros b s; [done|].
  destruct s as [|z s]; [done|]. destruct b as [|y b]; [cbn; lia|].
  cbn. destruct (decide (x = z)) as [->|]; [|done].
  destruct (decide (y = z)) as [->|]; [|done]. intros Ha Hb Hl.
  rewrite decide_True by done. apply (IH b s); [done..|lia].
Qed.

Lemma lstrip_rounds_split (toks : list string) (n : nat) (s : string) :
  exists b, blank toks b /\ s = b +:+ lstrip_rounds toks n s.
Proof.
  revert s. induction n as [|n IH]; intros s; [exists ""; split; [constructor|done]|].
  cbn. destruct (chop toks s) as [s'|] eqn:E; [|exists ""; split; [constructor|done]].
  apply chop_sound in E as (t & Hin & ->).
  destruct (IH s') as (b & Hb & Hs). exists (t +:+ b). split; [by constructor|].
  rewrite str_app_assoc. by rewrite <- Hs.
Qed.

Section Tokens.

Variable toks : list string.
Hypothesis nonempty : tokens_nonempty toks = true.
Hypothesis prefix_free : tokens_prefix_free toks = true.
Hypothesis heads_apart : tokens_heads_apart toks = true.

Lemma chop_empty : chop toks "" = None.
Proof using nonempty.
  unfold tokens_nonempty in nonempty. clear -nonempty.
  induction toks as [|t ts IH]; [done|]. cbn in *.
  apply andb_true_iff in nonempty as [Ht Hts].
  destruct t; [done|]. cbn. by apply IH.
Qed.

Lemma token_nonempty (t : string) : In t toks -> 0 < String.length t.
Proof using nonempty.
  intros Hin. unfold tokens_nonempty in nonempty.
  rewrite forallb_forall in nonempty. specialize (nonempty t Hin).
  destruct t; [done|cbn; lia].
Qed.

Lemma chop_token (t s : string) : In t toks -> chop toks (t +:+ s) = Some s.
Proof using prefix_free.
  intros Hin. destruct (chop toks (t +:+ s)) as [s'|] eqn:E.
  - apply chop_sound in E as (t' & Hin' & E).
    assert (t' = t) as ->.
    { unfold tokens_prefix_free in prefix_free.
      rewrite forallb_forall in prefix_free.
      pose proof (prefix_free t Hin) as P1. pose proof (prefix_free t' Hin') as P2.
      rewrite forallb_forall in P1, P2.
      specialize (P1 t' Hin'). specialize (P2 t Hin).
      assert (H1 : startswith t (t +:+ s) = true) by apply startswith_app.
      assert (H2 : startswith t' (t +:+ s) = true).
      { rewrite E. apply startswith_app. }
      destruct (le_ge_dec (String.length t) (String.length t')) as [Hl|Hl].
      - rewrite (startswith_comparable _ _ _ H1 H2 Hl) in P2.
        cbn in P2. by apply bool_decide_eq_true in P2.
      - rewrite (startswith_comparable _ _ _ H2 H1 Hl) in P1.
        cbn in P1. by apply bool_decide_eq_true in P1. }
    f_equal. by apply String.app_inj in E.
  - exfalso. apply (chop_complete toks t (t +:+ s)); [done|apply startswith_app|done].
Qed.

Lemma blank_head (s : string) :
  blank toks s -> s <> "" ->
  exists h later rest t, In t toks /\ t = String h later /\ s = t +:+ rest.
Proof using nonempty.
  induction 1 as [|t s Ht _ IH]; [done|]. intros _.
  pose proof (token_nonempty t Ht) as Hl.
  destruct t as [|h later]; [cbn in Hl; lia|]. by exists h, later, s, (String h later).
Qed.

Lemma chop_none_app (y r : string) :
  chop toks y = None -> y <> "" -> blank toks r -> chop toks (y +:+ r) = None.
Proof using nonempty heads_apart.
  intros Hy Hne Hr. destruct (chop toks (y +:+ r)) as [s'|] eqn:E; [|done].
  exfalso. apply chop_sound in E as (t & Hin & E).
  destruct (str_app_inv _ _ _ _ E) as [(w & -> & Hrw)|(w & -> & _)].
  - (* the token runs past [y] *)
    destruct w as [|c w].
    { rewrite str_app_nil_r in Hin.
      apply (chop_complete toks y y Hin); [|done].
      rewrite <- (str_app_nil_r y) at 2. apply startswith_app. }
    destruct (blank_head r Hr) as (h & later & rest & t2 & Hin2 & -> & Hr2).
    { by rewrite Hrw. }
    rewrite Hrw, !str_app_cons in Hr2. injection Hr2 as -> _.
    unfold tokens_heads_apart in heads_apart.
    rewrite forallb_forall in heads_apart.
    specialize (heads_apart _ Hin2). cbn in heads_apart.
    rewrite forallb_forall in heads_apart.
    specialize (heads_apart _ Hin).
    destruct y as [|y0 y]; [done|]. rewrite str_app_cons in heads_apart.
    apply negb_true_iff in heads_apart.
    clear -heads_apart. induction y as [|x y IH].
    + rewrite str_app_nil_l in heads_apart. cbn in heads_apart.
      rewrite bool_decide_eq_true_2 in heads_apart; done.
    + rewrite str_app_cons in heads_apart. cbn in heads_apart.
      apply orb_false_iff in heads_apart as [_ H]. by apply IH.
  - apply (chop_complete toks t (t +:+ w) Hin); [apply startswith_app|done].
Qed.

Lemma lstrip_rounds_fixed (n : nat) (s : string) :
  String.length s <= n -> chop toks (lstrip_rounds toks n s) = None.
Proof using nonempty.
  revert s. induction n as [|n IH]; intros s Hl.
  - destruct s; [|cbn in Hl; lia]. apply chop_empty.
  - cbn. destruct (chop toks s) as [s'|] eqn:E; [|done].
    apply IH. apply chop_sound in E as (t & Hin & ->).
    pose proof (token_nonempty t Hin). rewrite str_length_app in Hl. lia.
Qed.

Lemma lstrip_rounds_unique (n : nat) (b y : string) :
  blank toks b -> chop toks y = None -> String.length (b +:+ y) <= n ->
  lstrip_rounds toks n (b +:+ y) = y.
Proof using nonempty prefix_free.
  intros Hb Hy. revert n. induction Hb as [|t b Ht _ IH]; intros n Hl.
  - rewrite str_app_nil_l. destruct n; [done|]. cbn. by rewrite Hy.
  - pose proof (token_nonempty t Ht). rewrite str_app_assoc in *.
    rewrite str_length_app in Hl. destruct n as [|n]; [lia|].
    cbn. rewrite chop_token by done. apply IH. lia.
Qed.

End Tokens.

Lemma whitespace_nonempty : tokens_nonempty WHITESPACE = true.
Proof. vm_compute. reflexivity. Qed.

Lemma whitespace_prefix_free : tokens_prefix_free WHITESPACE = true.
Proof. vm_compute. reflexivity. Qed.

Lemma whitespace_heads_apart : tokens_heads_apart WHITESPACE = true.
Proof. vm_compute. reflexivity. Qed.

Lemma whitespace_rev_nonempty : tokens_nonempty (map rev WHITESPACE) = true.
Proof. vm_compute. reflexivity. Qed.

Lemma whitespace_rev_prefix_free : tokens_prefix_free (map rev WHITESPACE) = true.
Proof. vm_compute. reflexivity. Qed.

Lemma whitespace_rev_rev : map rev (map rev WHITESPACE) = WHITESPACE.
Proof. vm_compute. reflexivity. Qed.

Lemma lstrip_split (s : string) :
  exists b, blank WHITESPACE b /\ s = b +:+ lstrip s.
Proof. apply lstrip_rounds_split. Qed.

Lemma lstrip_fixed (s : string) : chop WHITESPACE (lstrip s) = None.
Proof. apply lstrip_rounds_fixed; [apply whitespace_nonempty|done]. Qed.

Lemma lstrip_unique (b y : string) :
  blank WHITESPACE b -> chop WHITESPACE y = None -> lstrip (b +:+ y) = y.
Proof.
  intros Hb Hy. apply lstrip_rounds_unique;
    auto using whitespace_nonempty, whitespace_prefix_free.
Qed.

Lemma rstrip_split (s : string) :
  exists b, blank WHITESPACE b /\ s = rstrip s +:+ b.
Proof.
  unfold rstrip.
  destruct (lstrip_rounds_split (map rev WHITESPACE) (String.length s) (rev s))
    as (b & Hb & Hs).
  exists (rev b). split.
  - rewrite <- whitespace_rev_rev. by apply blank_rev.
  - rewrite <- rev_app, <- Hs. by rewrite rev_rev.
Qed.

Lemma rstrip_fixed (s : string) :
  chop (map rev WHITESPACE) (rev (rstrip s)) = None.
Proof.
  unfold rstrip. rewrite rev_rev.
  apply lstrip_rounds_fixed; [apply whitespace_rev_nonempty|].
  by rewrite rev_length.
Qed.

Lemma rstrip_unique (y b : string) :
  blank WHITESPACE b -> chop (map rev WHITESPACE) (rev y) = None ->
  rstrip (y +:+ b) = y.
Proof.
  intros Hb Hy. unfold rstrip. rewrite rev_app.
  rewrite lstrip_rounds_unique;
    auto using whitespace_rev_nonempty, whitespace_rev_prefix_free, blank_rev.
  - apply rev_rev.
  - by rewrite <- rev_app, rev_length.
Qed.

Lemma chop_prefix_none (toks : list string) (m r : string) :
  chop toks (m +:+ r) = None -> chop toks m = None.
Proof.
  intros H. destruct (chop toks m) as [s'|] eqn:E; [|done].
  apply chop_sound in E as (t & Hin & ->). exfalso.
  apply (chop_complete toks t ((t +:+ s') +:+ r) Hin); [|done].
  rewrite str_app_assoc. apply startswith_app.
Qed.

(** Trimming is idempotent. *)
Lemma strip_strip (s : string) : strip (strip s) = strip s.
Proof.
  unfold strip at 2. set (y := lstrip s). set (m := rstrip y).
  destruct (rstrip_split y) as (r & Hr & Hy). fold m in Hy.
  assert (Hm : chop WHITESPACE m = None).
  { apply (chop_prefix_none _ m r). rewrite <- Hy. apply lstrip_fixed. }
  unfold strip.
  rewrite <- (str_app_nil_l m) at 1. rewrite lstrip_unique by (done || constructor).
  rewrite <- (str_app_nil_r m) at 1. apply rstrip_unique; [constructor|].
  apply rstrip_fixed.
Qed.

(** Trimming ignores blank text at the end. *)
Lemma strip_app_blank (x r : string) :
  blank WHITESPACE r -> strip (x +:+ r) = strip x.
Proof.
  intros Hr. unfold strip.
  destruct (lstrip_split x) as (b & Hb & Hx). set (y := lstrip x) in *.
  destruct (decide (y = "")) as [Hy|Hy].
  - rewrite Hy in *. rewrite Hx, str_app_nil_r.
    rewrite <- (str_app_nil_r (b +:+ r)).
    rewrite lstrip_unique; [done|by apply blank_app|].
    apply chop_empty, whitespace_nonempty.
  - assert (Hl : lstrip (x +:+ r) = y +:+ r).
    { rewrite Hx at 1. rewrite str_app_assoc. apply lstrip_unique; [done|].
      apply chop_none_app;
        auto using whitespace_nonempty, whitespace_heads_apart.
      apply lstrip_fixed. }
    rewrite Hl. destruct (rstrip_split y) as (r2 & Hr2 & Hy2).
    rewrite Hy2 at 1. rewrite str_app_assoc.
    apply rstrip_unique; [by apply blank_app|apply rstrip_fixed].
Qed.

Lemma strip_split (s : string) :
  exists b r, blank WHITESPACE b /\ blank WHITESPACE r
              /\ s = b +:+ strip s +:+ r.
Proof.
  destruct (lstrip_split s) as (b & Hb & Hs).
  destruct (rstrip_split (lstrip s)) as (r & Hr & Hy).
  exists b, r. split; [done|]. split; [done|]. unfold strip.
  by rewrite <- Hy.
Qed.

(** ** Fences and blank text *)

Lemma occurs_app (c : ascii) (a b : string) :
  occurs c (a +:+ b) = occurs c a || occurs c b.
Proof.
  induction a as [|x a IH]; [done|].
  rewrite str_app_cons. cbn. rewrite IH. apply orb_assoc.
Qed.

Lemma occurs_last (d : ascii) (s : string) :
  s <> "" -> occurs (last_of d s) s = true.
Proof.
  revert d. induction s as [|x s IH]; intros d Hs; [done|].
  cbn. destruct s as [|y s].
  - cbn. by rewrite bool_decide_eq_true_2.
  - rewrite IH by done. apply orb_true_r.
Qed.

Lemma partition_skip (h : ascii) (sep b s : string) :
  occurs h b = false ->
  partition (String h sep) (b +:+ s) =
    match partition (String h sep) s with
    | Some (x, y) => Some (b +:+ x, y)
    | None => None
    end.
Proof.
  induction b as [|c b IH]; intros Hb.
  - rewrite str_app_nil_l. by destruct (partition _ s) as [[x y]|].
  - cbn in Hb. apply orb_false_iff in Hb as [Hc Hb].
    apply bool_decide_eq_false in Hc.
    rewrite str_app_cons. cbn [partition startswith].
    rewrite decide_False by congruence. rewrite IH by done.
    by destruct (partition _ s) as [[x y]|].
Qed.

Lemma startswith_app_long (sep x r : string) :
  String.length sep <= String.length x ->
  startswith sep (x +:+ r) = startswith sep x.
Proof.
  revert x. induction sep as [|a sep IH]; intros x Hl; [done|].
  destruct x as [|z x]; [cbn in Hl; lia|]. rewrite str_app_cons. cbn.
  destruct (decide (a = z)); [|done]. apply IH. cbn in Hl. lia.
Qed.

Lemma partition_app_found (sep s r a b : string) :
  partition sep s = Some (a, b) -> partition sep (s +:+ r) = Some (a, b +:+ r).
Proof.
  revert a b. induction s as [|c s IH]; intros a b.
  - cbn. destruct (startswith sep "") eqn:E; [|done]. intros [= <- <-].
    destruct sep; [|done]. rewrite str_app_nil_l. by destruct r.
  - intros P. pose proof (partition_length _ _ _ _ P) as Hl.
    rewrite str_app_cons. cbn [partition] in *.
    assert (startswith sep (String c (s +:+ r)) = startswith sep (String c s))
      as -> by (rewrite <- str_app_cons; apply startswith_app_long; lia).
    destruct (startswith sep (String c s)) eqn:E.
    + injection P as <- <-. f_equal. f_equal. apply startswith_spec in E.
      rewrite <- str_app_cons. rewrite E at 1. rewrite str_app_assoc.
      apply drop_app_length.
    + destruct (partition sep s) as [[a0 b0]|] eqn:P2; [|done].
      injection P as <- <-. by rewrite (IH _ _ eq_refl).
Qed.

Lemma startswith_app_cases (d : ascii) (sep x r : string) :
  sep <> "" -> startswith sep (x +:+ r) = true ->
  startswith sep x = true \/ occurs (last_of d sep) r = true.
Proof.
  revert sep d. induction x as [|c x IH]; intros sep d Hsep.
  - rewrite str_app_nil_l. intros H%startswith_inv. destruct H as [y ->].
    right. rewrite occurs_app, occurs_last by done. done.
  - destruct sep as [|a sep]; [done|]. rewrite str_app_cons. cbn.
    destruct (decide (a = c)) as [->|]; [|done].
    destruct sep as [|a2 sep]; [by left|]. intros H.
    apply (IH _ c) in H; [|done]. exact H.
Qed.

Lemma partition_app_missing (d : ascii) (sep s r : string) :
  sep <> "" -> occurs (last_of d sep) r = false ->
  partition sep s = None -> partition sep (s +:+ r) = None.
Proof.
  intros Hsep Hr. induction s as [|c s IH].
  - intros _. rewrite str_app_nil_l.
    destruct (partition sep r) as [[a b]|] eqn:P; [|done].
    apply partition_split in P. rewrite P, !occurs_app in Hr.
    rewrite (occurs_last d sep Hsep) in Hr.
    by rewrite orb_true_l, orb_true_r in Hr.
  - cbn [partition]. destruct (startswith sep (String c s)) eqn:E; [done|].
    destruct (partition sep s) as [[a b]|]; [done|]. intros _.
    rewrite str_app_cons. cbn [partition]. rewrite <- str_app_cons.
    destruct (startswith sep (String c s +:+ r)) eqn:E2.
    + destruct (startswith_app_cases d _ _ _ Hsep E2); congruence.
    + by rewrite IH.
Qed.

(** The three characters [```] and the tag [json] are no blanks. *)
Lemma whitespace_avoids_backtick : tokens_avoid "`" WHITESPACE = true.
Proof. vm_compute. reflexivity. Qed.

Lemma whitespace_avoids_n : tokens_avoid "n" WHITESPACE = true.
Proof. vm_compute. reflexivity. Qed.

Lemma before_app_blank (d : ascii) (sep x r : string) :
  sep <> "" -> occurs (last_of d sep) r = false ->
  before sep (x +:+ r) = before sep x \/
  (before sep (x +:+ r) = x +:+ r /\ before sep x = x).
Proof.
  intros Hsep Hr. unfold before.
  destruct (partition sep x) as [[a b]|] eqn:P.
  - left. by rewrite (partition_app_found _ _ r _ _ P).
  - right. by rewrite (partition_app_missing d _ _ _ Hsep Hr P).
Qed.

(** Trimming the text first does not change the trimmed selection. *)
Lemma fenced_payload_strip (text : string) :
  strip (fenced_payload (strip text)) = strip (fenced_payload text).
Proof.
  destruct (strip_split text) as (b & r & Hb & Hr & Ht).
  set (m := strip text) in *.
  pose proof (blank_occurs _ _ _ whitespace_avoids_backtick Hb) as Hb1.
  pose proof (blank_occurs _ _ _ whitespace_avoids_backtick Hr) as Hr1.
  pose proof (blank_occurs _ _ _ whitespace_avoids_n Hr) as Hr2.
  assert (Hcut : forall x,
             strip (before "```" (x +:+ r)) = strip (before "```" x)).
  { intros x. destruct (before_app_blank "`" "```" x r) as [->|[-> ->]];
      [done|exact Hr1|done|by apply strip_app_blank]. }
  unfold fenced_payload at 2. rewrite Ht at 1.
  rewrite (partition_skip "`" "``json" b _ Hb1).
  destruct (partition "```json" m) as [[pre rest]|] eqn:PJ.
  - rewrite (partition_app_found _ _ r _ _ PJ).
    unfold fenced_payload. rewrite PJ.
    destruct (before_app_blank "`" "```json" rest r) as [->|[-> ->]];
      [done|exact Hr2|done|symmetry; apply Hcut].
  - rewrite (partition_app_missing "`" _ _ r) by done.
    rewrite Ht at 1. rewrite (partition_skip "`" "``" b _ Hb1).
    destruct (partition "```" m) as [[pre rest]|] eqn:PF.
    + rewrite (partition_app_found _ _ r _ _ PF).
      unfold fenced_payload. rewrite PJ, PF. symmetry. apply Hcut.
    + rewrite (partition_app_missing "`" _ _ r) by done.
      unfold fenced_payload. rewrite PJ, PF. subst m. apply strip_strip.
Qed.

(** ** The two parsers *)

Lemma parse_json_from_text_decoded (text : string) (l : log) :
  _parse_json_from_text text l =
    (match decoded text with
     | Decodes v => Return v
     | Malformed => Raise JSONDecodeError
     | TooDeep => Raise RecursionError
     | TooLong => Raise ValueError
     end, l).
Proof.
  unfold _parse_json_from_text, decoded, bind.
  rewrite select_fenced_payload. unfold loads.
  rewrite fenced_payload_strip. by destruct (json_loads _).
Qed.

Lemma grade_essay_outcome (criteria_text essay_text : string) (l : log) :
  let prompt := Prompts.GRADING_PROMPT_format criteria_text essay_text in
  let final_message := content_text (agent prompt) in
  grade_essay criteria_text essay_text l =
    (match decoded final_message with
     | Decodes v => Return v
     | Malformed => Return (raw_text_envelope final_message)
     | TooDeep => Raise RecursionError
     | TooLong => Raise ValueError
     end,
     l ++ [EvAgent prompt]).
Proof.
  cbv zeta. unfold grade_essay, agent_invoke, try_except, bind, emit, ret, decoded.
  rewrite select_fenced_payload. unfold loads.
  by destruct (json_loads _).
Qed.

(** ** Facts about the verifier *)

Lemma for_each_pure {A B} (f : A -> py B) (g : A -> B) (xs : list A) (l : log) :
  Forall (fun x => forall l, f x l = (Return (g x), l)) xs ->
  for_each f xs l = (Return (map g xs), l).
Proof.
  induction 1 as [|x xs Hx _ IH]; [done|].
  cbn [for_each]. unfold bind. by rewrite Hx, IH.
Qed.

Lemma filter_has_urls (references : list RefRecord) :
  has_urls references =
    match List.filter (fun r => negb (bool_decide (search_urls r = []))) references with
    | [] => false
    | _ :: _ => true
    end.
Proof.
  unfold has_urls. induction references as [|r rs IH]; [done|].
  cbn. destruct (negb (bool_decide (search_urls r = []))); [done|]. exact IH.
Qed.

Lemma verify_without_urls (references : list RefRecord) (l : log) :
  has_urls references = false ->
  verify_references_with_llm references l = (Return references, l).
Proof.
  rewrite filter_has_urls. unfold verify_references_with_llm.
  by destruct (List.filter _ references).
Qed.

Lemma build_llm_map_eq (verdicts : list pyval) (m : gmap string pyval) (l : log) :
  build_llm_map verdicts m l =
    (match first_failure verdicts with
     | None => Return (llm_map_of verdicts m)
     | Some e => Raise e
     end, l).
Proof.
  revert m. induction verdicts as [|v vs IH]; intros m; [done|].
  cbn [build_llm_map llm_map_of fold_left first_failure]. unfold bind, subscript.
  destruct v as [| | | | |?|d]; try done.
  destruct (dict_get d "reference") as [key|]; [|done].
  unfold raise, ret, store. destruct key; try apply IH; done.
Qed.

Lemma verdicts_never_fail (verdicts : list pyval) :
  forallb is_verdict verdicts = true -> first_failure verdicts = None.
Proof.
  induction verdicts as [|v vs IH]; [done|]. cbn.
  intros [Hv Hvs]%andb_true_iff.
  destruct v as [| | | | |?|d]; try done. cbn in Hv.
  destruct (dict_get d "reference") as [[]|]; try done; by apply IH.
Qed.

Lemma llm_map_of_dicts (verdicts : list pyval) (m : gmap string pyval) :
  all_dicts m -> all_dicts (llm_map_of verdicts m).
Proof.
  revert m. induction verdicts as [|v vs IH]; intros m Hm; [done|].
  cbn [llm_map_of fold_left]. apply IH.
  destruct v as [| | | | |?|d]; try done.
  destruct (dict_get d "reference") as [[| | | |k|?|?]|]; try done.
  intros k' v'. destruct (decide (k = k')) as [->|Hne].
  - rewrite lookup_insert_eq. intros [= <-]. eauto.
  - rewrite lookup_insert_ne by done. apply Hm.
Qed.

Lemma find_snoc {A} (p : A -> bool) (xs : list A) (x : A) :
  List.find p (xs ++ [x]) =
    match List.find p xs with
    | Some y => Some y
    | None => if p x then Some x else None
    end.
Proof.
  induction xs as [|y ys IH]; cbn; [done|]. destruct (p y); [done|exact IH].
Qed.

Lemma llm_map_of_lookup (verdicts : list pyval) (m : gmap string pyval) (k : string) :
  llm_map_of verdicts m !! k =
    match verdict_for verdicts k with
    | Some v => Some v
    | None => m !! k
    end.
Proof.
  revert m. unfold verdict_for.
  induction verdicts as [|v vs IH]; intros m; [done|].
  cbn [llm_map_of fold_left List.rev]. rewrite find_snoc.
  fold (llm_map_of vs). rewrite IH.
  destruct (List.find (names k) (List.rev vs)); [done|].
  unfold names. destruct v as [| | | | |?|d]; try done.
  destruct (dict_get d "reference") as [[| | | |k'|?|?]|]; try done.
  case_bool_decide as Hk.
  - subst k'. by rewrite lookup_insert_eq.
  - by rewrite lookup_insert_ne.
Qed.

Lemma verdict_for_Some (verdicts : list pyval) (k : string) (v : pyval) :
  verdict_for verdicts k = Some v -> In v verdicts /\ names k v = true.
Proof.
  unfold verdict_for. intros H. apply List.find_some in H as [Hin Hn].
  split; [|done]. by apply in_rev.
Qed.

Lemma verdict_for_None (verdicts : list pyval) (k : string) :
  verdict_for verdicts k = None <-> forall v, In v verdicts -> names k v = false.
Proof.
  unfold verdict_for. split.
  - intros H v Hin. apply (List.find_none _ _ H). by apply in_rev in Hin.
  - intros H. destruct (List.find _ _) as [v|] eqn:E; [|done].
    apply List.find_some in E as [Hin Hn]. apply in_rev in Hin.
    rewrite (H v Hin) in Hn. done.
Qed.

Lemma merge_verdict_merged (m : gmap string pyval) (r : RefRecord) (l : log) :
  all_dicts m -> merge_verdict m r l = (Return (merged m r), l).
Proof.
  intros Hm. unfold merge_verdict, merged.
  destruct (m !! reference r) as [v|] eqn:E; [|done].
  destruct (Hm _ _ E) as [d ->]. done.
Qed.

Lemma empty_dicts : all_dicts ∅.
Proof. intros k v. by rewrite lookup_empty. Qed.

(** The verifier, once it has asked the judge. *)
Lemma verify_with_urls (references : list RefRecord) (l : log) :
  has_urls references = true ->
  verify_references_with_llm references l =
    let l1 := l ++ [EvLlm (verify_prompt references)] in
    match decoded (verifier_reply references) with
    | Malformed => for_each mark_unparsed references l1
    | Decodes (PList verdicts) =>
        (match first_failure verdicts with
         | None => Return (map (merged (llm_map_of verdicts ∅)) references)
         | Some e => Raise e
         end, l1)
    | Decodes _ => (Return references, l1)
    | TooDeep => (Raise RecursionError, l1)
    | TooLong => (Raise ValueError, l1)
    end.
Proof.
  rewrite filter_has_urls. unfold verify_references_with_llm.
  destruct (List.filter _ references); [done|]. intros _.
  unfold bind at 1. unfold _invoke_llm, bind at 1, emit, ret.
  unfold try_except, bind at 1. rewrite parse_json_from_text_decoded.
  fold (verifier_reply references).
  destruct (decoded (verifier_reply references)) as [v| | |]; [|done..].
  destruct v; try done.
  unfold bind. rewrite build_llm_map_eq.
  destruct (first_failure items) as [e|] eqn:F.
  - revert F. clear. revert e. induction items as [|v vs IH]; intros e; [done|].
    cbn. destruct v as [| | | | |?|d]; try by intros [= <-].
    destruct (dict_get d "reference") as [[]|]; try (by intros [= <-]); apply IH.
  - rewrite (for_each_pure _ (merged (llm_map_of items ∅))); [done|].
    apply Forall_forall. intros x _ l'.
    apply merge_verdict_merged, llm_map_of_dicts, empty_dicts.
Qed.

Lemma for_each_Forall2 {A B} (f : A -> py B) (P : A -> B -> Prop)
    (xs : list A) (l : log) (out : list B) (l' : log) :
  (forall x l y l', f x l = (Return y, l') -> P x y /\ l' = l) ->
  for_each f xs l = (Return out, l') ->
  Forall2 P xs out /\ l' = l.
Proof.
  intros Hf. revert l out l'. induction xs as [|x xs IH]; intros l out l'.
  - intros [= <- <-]. by split; [constructor|].
  - cbn [for_each]. unfold bind.
    destruct (f x l) as [[y|e|] l1] eqn:Fx; [|done..].
    destruct (for_each f xs l1) as [[ys|e|] l2] eqn:Fxs; [|done..].
    intros [= <- <-]. apply Hf in Fx as [Hxy ->]. apply IH in Fxs as [Hxs ->].
    by split; [constructor|].
Qed.

Lemma mark_unparsed_text (r : RefRecord) (l : log) :
  (exists s, notes r = PStr s) -> mark_unparsed r l = (Return (marked r), l).
Proof. intros [s H]. unfold mark_unparsed, marked, bind, iadd_str. by rewrite H. Qed.

Lemma mark_unparsed_frame (r : RefRecord) (l : log) (r' : RefRecord) (l' : log) :
  mark_unparsed r l = (Return r', l') ->
  (reference r' = reference r /\ verified r' = verified r
   /\ search_urls r' = search_urls r) /\ l' = l.
Proof.
  unfold mark_unparsed, bind, iadd_str.
  destruct (notes r); try done; by intros [= <- <-].
Qed.

Lemma merged_frame (m : gmap string pyval) (r : RefRecord) :
  reference (merged m r) = reference r /\ search_urls (merged m r) = search_urls r.
Proof. unfold merged. by destruct (m !! reference r) as [[]|]. Qed.

Lemma merged_twice (m : gmap string pyval) (r : RefRecord) :
  merged m (merged m r) = merged m r.
Proof.
  unfold merged.
  destruct (m !! reference r) as [[| | | | |?|d]|] eqn:E; rewrite ?E; try done.
  cbn [reference]. rewrite E. cbn. f_equal.
  by destruct (dict_get d "notes").
Qed.

Lemma Forall2_same {A} (P : A -> A -> Prop) (xs : list A) :
  (forall x, P x x) -> Forall2 P xs xs.
Proof. intros H. induction xs; by constructor. Qed.

Lemma Forall2_map_r {A B} (P : A -> B -> Prop) (g : A -> B) (xs : list A) :
  Forall (fun x => P x (g x)) xs -> Forall2 P xs (map g xs).
Proof. induction 1; cbn; by constructor. Qed.

(** Whenever the verifier returns, it returns the records in their order
    with [reference] and [search_urls] as they were. *)
Lemma verify_frame (references : list RefRecord) (l : log)
    (out : list RefRecord) (l' : log) :
  verify_references_with_llm references l = (Return out, l') ->
  Forall2
    (fun r r' => reference r' = reference r /\ search_urls r' = search_urls r)
    references out.
Proof.
  destruct (has_urls references) eqn:U.
  - rewrite verify_with_urls by done. cbv zeta.
    destruct (decoded (verifier_reply references)) as [v| | |]; [| |done..].
    + assert (Hsame : (Return references, l ++ [EvLlm (verify_prompt references)])
                      = (Return out, l') ->
                      Forall2 (fun r r' => reference r' = reference r
                                 /\ search_urls r' = search_urls r) references out).
      { intros [= <- _]. by apply Forall2_same. }
      destruct v as [| | | | |vs|]; try exact Hsame.
      destruct (first_failure vs); [done|]. intros [= <- _].
      apply Forall2_map_r, Forall_forall. intros r _. apply merged_frame.
    + intros H.
      apply (for_each_Forall2 _
               (fun r r' => reference r' = reference r
                            /\ search_urls r' = search_urls r)) in H as [H _];
        [done|].
      intros x l0 y l0' Hm. apply mark_unparsed_frame in Hm. tauto.
  - rewrite verify_without_urls by done. intros [= <- _]. by apply Forall2_same.
Qed.

Lemma has_urls_frame (references out : list RefRecord) :
  Forall2
    (fun r r' => reference r' = reference r /\ search_urls r' = search_urls r)
    references out ->
  has_urls out = has_urls references.
Proof.
  unfold has_urls. induction 1 as [|r r' rs rs' [_ Hu] _ IH]; [done|].
  cbn. by rewrite Hu, IH.
Qed.

(** ** Facts about the searcher and the pipeline *)

Lemma searches_app (l1 l2 : log) : searches (l1 ++ l2) = searches l1 ++ searches l2.
Proof. apply List.filter_app. Qed.

(** What [search_single_reference] gives and logs, by what the search
    does. *)
Lemma search_single_reference_outcome (ref : string) (l : log) :
  let outcome := web (length (searches l)) ref in
  search_single_reference ref l = (searched ref outcome, l ++ search_log ref outcome).
Proof.
  cbv zeta.
  unfold search_single_reference, try_except, bind, submit, leaving, try_except,
    bind, future_result, shutdown, sleep, emit, ret, raise, hang.
  destruct (web (length (searches l)) ref) as [[|u us]| |cause|]; cbn;
    rewrite <- ?List.app_assoc; reflexivity.
Qed.

Lemma search_log_searches (ref : string) (outcome : search_outcome) :
  searches (search_log ref outcome) = [EvSearch ref].
Proof. by destruct outcome. Qed.

Lemma search_reference_log (ref : string) (l : log) :
  let outcome := web (length (searches l)) ref in
  exists res,
    search_reference ref l = (res, l ++ search_log ref outcome)
    /\ match outcome with
       | Hangs => res = Hang
       | Urls _ | TimedOut | Failed _ => exists text, res = Return text
       end.
Proof.
  cbv zeta.
  unfold search_reference, try_except, bind, submit, leaving, try_except,
    bind, future_result, shutdown, sleep, emit, ret, raise, hang.
  destruct (web (length (searches l)) ref) as [[|u us]| |cause|]; cbn;
    rewrite <- ?List.app_assoc; eauto.
Qed.

Lemma searched_returns (ref : string) (outcome : search_outcome) :
  outcome <> Hangs ->
  exists record,
    searched ref outcome = Return record
    /\ reference record = ref
    /\ verified record = PBool false
    /\ exists note, notes record = PStr note.
Proof. destruct outcome as [[|u us]| |cause|]; cbn; eauto 10; done. Qed.

(** The searches of the pipeline: all of them when each one ends, and
    otherwise those up to the first that never ends. *)
Lemma search_each_reference (refs : list string) (l : log) :
  exists res l',
    for_each search_single_reference refs l = (res, l')
    /\ match first_hang (length (searches l)) refs with
       | None =>
           searches l' = searches l ++ map EvSearch refs
           /\ exists records,
               res = Return records
               /\ map reference records = refs
               /\ notes_are_text records = true
       | Some k =>
           res = Hang
           /\ searches l' = searches l ++ map EvSearch (take (S k) refs)
       end.
Proof.
  revert l. induction refs as [|ref refs IH]; intros l.
  - exists (Return []), l. split; [done|]. cbn. rewrite app_nil_r. eauto.
  - cbn [for_each first_hang]. unfold bind.
    rewrite search_single_reference_outcome. cbv zeta.
    set (outcome := web (length (searches l)) ref).
    destruct (IH (l ++ search_log ref outcome)) as (res & l' & Hrun & Hrest).
    rewrite searches_app, search_log_searches, length_app, Nat.add_1_r in Hrest.
    cbn [length] in Hrest.
    assert (Hcases : outcome = Hangs \/ outcome <> Hangs)
      by (destruct outcome; auto).
    destruct Hcases as [Hh|Hh].
    + rewrite Hh. cbn. eexists _, _. split; [reflexivity|].
      split; [done|]. by rewrite searches_app.
    + destruct (searched_returns ref outcome Hh) as (r & Hr & Href & _ & note & Hn).
      rewrite Hr, Hrun.
      assert (Hf : match outcome with
                   | Hangs => Some 0
                   | Urls _ | TimedOut | Failed _ =>
                       S <$> first_hang (S (length (searches l))) refs
                   end = S <$> first_hang (S (length (searches l))) refs).
      { by destruct outcome. }
      rewrite Hf. clear Hf.
      destruct (first_hang (S (length (searches l))) refs) as [k|]; cbn.
      * destruct Hrest as [-> Hlog]. eexists _, _. split; [reflexivity|].
        split; [done|]. rewrite Hlog. by rewrite <- List.app_assoc.
      * destruct Hrest as (Hlog & rs & -> & Hrefs & Htext).
        eexists _, _. split; [reflexivity|]. split.
        -- rewrite Hlog. by rewrite <- List.app_assoc.
        -- exists (r :: rs). split; [done|]. split; [cbn; congruence|].
           unfold notes_are_text in *. cbn [forallb]. by rewrite Hn, Htext.
Qed.

(** The references the extractor returns for an essay. *)
Lemma extract_references_outcome (essay_text : string) (l : log) :
  extract_references_with_llm essay_text l =
    (match decoded (content_text (llm (extract_prompt essay_text))) with
     | Decodes (PList items) => Return (map str items)
     | Decodes _ | Malformed => Return []
     | TooDeep => Raise RecursionError
     | TooLong => Raise ValueError
     end,
     l ++ [EvLlm (extract_prompt essay_text)]).
Proof.
  unfold extract_references_with_llm, _invoke_llm, try_except, bind, emit, ret.
  rewrite parse_json_from_text_decoded.
  destruct (decoded _) as [v| | |]; [|done..]. by destruct v.
Qed.

Lemma first_failure_class (verdicts : list pyval) (e : exn) :
  first_failure verdicts = Some e -> e = TypeError \/ e = KeyError.
Proof.
  revert e. induction verdicts as [|v vs IH]; intros e; [done|].
  cbn. destruct v as [| | | | |?|d]; try (intros [= <-]; auto).
  destruct (dict_get d "reference") as [[]|]; try (intros [= <-]; auto);
    apply IH.
Qed.

Lemma mark_all_unparsed (references : list RefRecord) (l : log) :
  notes_are_text references = true ->
  for_each mark_unparsed references l = (Return (map marked references), l).
Proof.
  intros T. apply for_each_pure, Forall_forall. intros r Hr l0.
  apply mark_unparsed_text.
  unfold notes_are_text in T. rewrite forallb_forall in T.
  apply list_elem_of_In in Hr. specialize (T r Hr).
  destruct (notes r); eauto; done.
Qed.

(** The verifier never hangs, raises nothing but what the dict
    comprehension and the decoder raise, and logs no search. *)
Lemma verify_outcome (references : list RefRecord) (l : log) :
  notes_are_text references = true ->
  exists res l',
    verify_references_with_llm references l = (res, l')
    /\ searches l' = searches l
    /\ match res with
       | Return out => map reference out = map reference references
       | Raise e => uncaught e
       | Hang => False
       end.
Proof.
  intros T. unfold uncaught. destruct (has_urls references) eqn:U.
  - rewrite verify_with_urls by done. cbv zeta.
    assert (Hl : searches (l ++ [EvLlm (verify_prompt references)]) = searches l).
    { rewrite searches_app. cbn. apply app_nil_r. }
    destruct (decoded (verifier_reply references)) as [v| | |].
    + destruct v as [| | | | |vs|]; try by (eexists _, _; split; [reflexivity|]).
      eexists _, _. split; [reflexivity|]. split; [done|].
      destruct (first_failure vs) as [e|] eqn:F.
      * apply first_failure_class in F as [->| ->]; auto.
      * rewrite map_map. apply map_ext. intros r. apply merged_frame.
    + rewrite mark_all_unparsed by done. eexists _, _. split; [reflexivity|].
      split; [done|]. rewrite map_map. apply map_ext. intros r.
      unfold marked. by destruct (notes r).
    + eexists _, _. split; [reflexivity|]. split; [done|]. auto.
    + eexists _, _. split; [reflexivity|]. split; [done|]. auto.
  - rewrite verify_without_urls by done. by eexists _, _.
Qed.

(** The pipeline.  When the extractor raises, so does the pipeline,
    before any search.  Otherwise it makes one search per extracted
    reference, in extraction order, up to the first search that never
    ends, where it hangs; when every search ends the verifier runs, and
    the pipeline returns one record per reference, in that order, or
    raises what the verifier raises. *)
Lemma verify_bibliography_outcome (essay_text : string) (l : log) :
  exists res l',
    verify_bibliography essay_text l = (res, l')
    /\ match fst (extract_references_with_llm essay_text l) with
       | Return refs =>
           match first_hang (length (searches l)) refs with
           | Some k =>
               res = Hang
               /\ searches l' = searches l ++ map EvSearch (take (S k) refs)
           | None =>
               searches l' = searches l ++ map EvSearch refs
               /\ match res with
                  | Return out => map reference out = refs
                  | Raise e => uncaught e
                  | Hang => False
                  end
           end
       | Raise e =>
           res = Raise e /\ searches l' = searches l
           /\ (e = RecursionError \/ e = ValueError)
       | Hang => False
       end.
Proof.
  unfold verify_bibliography, bind.
  rewrite extract_references_outcome. cbn [fst].
  assert (Hl : searches (l ++ [EvLlm (extract_prompt essay_text)]) = searches l).
  { rewrite searches_app. cbn. apply app_nil_r. }
  set (l0 := l ++ [EvLlm (extract_prompt essay_text)]) in *.
  assert (Hrefs : forall refs : list string,
    exists res l',
      match refs with
      | [] => ret []
      | _ :: _ =>
          fun l1 =>
            match for_each search_single_reference refs l1 with
            | (Return a, l') =>
                match verify_references_with_llm a l' with
                | (Return a0, l'0) => ret a0 l'0
                | (Raise e, l'0) => (Raise e, l'0)
                | (Hang, l'0) => (Hang, l'0)
                end
            | (Raise e, l') => (Raise e, l')
            | (Hang, l') => (Hang, l')
            end
      end l0 = (res, l')
      /\ match first_hang (length (searches l)) refs with
         | Some k =>
             res = Hang
             /\ searches l' = searches l ++ map EvSearch (take (S k) refs)
         | None =>
             searches l' = searches l ++ map EvSearch refs
             /\ match res with
                | Return out => map reference out = refs
                | Raise e => uncaught e
                | Hang => False
                end
         end).
  { intros refs. destruct refs as [|ref refs'] eqn:E.
    - eexists _, _. split; [reflexivity|]. cbn. by rewrite Hl, app_nil_r.
    - rewrite <- E.
      destruct (search_each_reference refs l0) as (sres & l1 & Hs & Hcase).
      rewrite Hs. rewrite Hl in Hcase.
      destruct (first_hang (length (searches l)) refs) as [k|].
      + destruct Hcase as [-> Hlog]. by eexists _, _.
      + destruct Hcase as (Hlog & records & -> & Hrs & Htext).
        destruct (verify_outcome records l1 Htext) as (res & l2 & Hv & Hlog2 & Hres).
        rewrite Hv. destruct res as [out|e|]; [| |done].
        * eexists _, _. split; [reflexivity|]. split; [congruence|]. congruence.
        * eexists _, _. split; [reflexivity|]. split; [congruence|done]. }
  destruct (decoded _) as [v| | |].
  - destruct v as [| | | | |items|]; try exact (Hrefs []). exact (Hrefs (map str items)).
  - exact (Hrefs []).
  - eexists _, _. split; [reflexivity|]. auto.
  - eexists _, _. split; [reflexivity|]. auto.
Qed.

(* ===================================================================== *)
(** ** The properties of the specification *)
(* ===================================================================== *)

(** Whatever a search that ends does (URLs, no URL, more than the 10
    seconds, an exception), [search_single_reference] returns a record
    for the reference and raises nothing.  After a timeout the record
    has no URL and a note that says "timed out"; after another failure
    it has no URL and the note "Search failed: <cause>"; on an empty
    result the note says the reference may not exist; on one or more
    URLs the note states how many were found.  With a search that never
    ends, [search_single_reference] does not return. *)
Lemma search_single_reference_absorbs_failures (ref : string) (l : log) :
  exists res l',
    search_single_reference ref l = (res, l')
    /\ match web (length (searches l)) ref with
       | TimedOut =>
           exists record note,
             res = Return record /\ reference record = ref
             /\ search_urls record = []
             /\ notes record = PStr note /\ contains "timed out" note = true
       | Failed cause =>
           exists record,
             res = Return record /\ reference record = ref
             /\ search_urls record = []
             /\ notes record = PStr ("Search failed: " +:+ cause)
       | Urls [] =>
           exists record,
             res = Return record /\ reference record = ref
             /\ search_urls record = []
             /\ notes record
                = PStr "No search results found. Reference may not exist."
       | Urls (u :: us) =>
           exists record,
             res = Return record /\ reference record = ref
             /\ search_urls record = u :: us
             /\ notes record
                = PStr ("Found " +:+ of_nat (length (u :: us)) +:+ " search results.")
       | Hangs => res = Hang
       end.
Proof.
  rewrite search_single_reference_outcome. cbv zeta. eexists _, _.
  split; [reflexivity|].
  destruct (web (length (searches l)) ref) as [[|u us]| |cause|]; cbn; eauto 10.
Qed.

(** C2, as amended.  Both [search_single_reference] and the agent tool
    [search_reference] sleep 0.5 after a search that succeeds, with or
    without URLs, and then return; after a search that times out or
    raises neither of them sleeps.  Each returns after every search that
    ends, and hangs with a search that never ends. *)
Theorem sleep_follows_a_successful_search_only (ref : string) (l : log) :
  let outcome := web (length (searches l)) ref in
  let sleeps :=
    match outcome with
    | Urls _ => [EvSleep (1 # 2)]
    | TimedOut | Failed _ | Hangs => []
    end in
  (exists res,
     search_single_reference ref l = (res, l ++ EvSearch ref :: sleeps)
     /\ match outcome with
        | Hangs => res = Hang
        | Urls _ | TimedOut | Failed _ => exists record, res = Return record
        end)
  /\ (exists res,
        search_reference ref l = (res, l ++ EvSearch ref :: sleeps)
        /\ match outcome with
           | Hangs => res = Hang
           | Urls _ | TimedOut | Failed _ => exists text, res = Return text
           end).
Proof.
  cbv zeta. split.
  - rewrite search_single_reference_outcome. cbv zeta.
    destruct (web (length (searches l)) ref) as [[|u us]| |cause|]; cbn; eauto.
  - destruct (search_reference_log ref l) as (res & Hrun & Hres).
    rewrite Hrun.
    destruct (web (length (searches l)) ref) as [[|u us]| |cause|]; cbn; eauto.
Qed.

(** C3, as amended.  The fence selection never raises.  When the text
    contains the opening fence with the json tag, it yields the text
    after the first such opening, cut at the next such opening if there
    is one, and then cut at the first fence of that piece if it has one;
    otherwise, when the text contains a fence, the text after the first
    fence cut at the next fence if there is one; otherwise the whole
    text.  Both parsers decode the trimmed selection
    ([_parse_json_from_text] also trims the text before it selects, which
    leaves the trimmed selection as it is, [fenced_payload_strip]).
    When the decoder raises [JSONDecodeError], [_parse_json_from_text]
    raises it to its caller, [extract_references_with_llm] turns it into
    an empty list and [grade_essay] returns the raw-text envelope; the
    other two errors of the decoder leave all three. *)
Theorem fence_selection_and_decoding
    (text criteria_text essay_text : string) (l : log) :
  select_fenced text l = (Return (fenced_payload text), l)
  /\ (if contains "```json" text then
        exists pre rest piece,
          splits_at_first "```json" text pre rest
          /\ cut_at "```json" rest piece
          /\ cut_at "```" piece (fenced_payload text)
      else if contains "```" text then
        exists pre rest,
          splits_at_first "```" text pre rest
          /\ cut_at "```" rest (fenced_payload text)
      else fenced_payload text = text)
  /\ _parse_json_from_text text l =
       (match json_loads (strip (fenced_payload text)) with
        | Decodes v => Return v
        | Malformed => Raise JSONDecodeError
        | TooDeep => Raise RecursionError
        | TooLong => Raise ValueError
        end, l)
  /\ extract_references_with_llm essay_text l =
       (match json_loads
                (strip (fenced_payload
                          (content_text (llm (extract_prompt essay_text))))) with
        | Decodes (PList items) => Return (map str items)
        | Decodes _ | Malformed => Return []
        | TooDeep => Raise RecursionError
        | TooLong => Raise ValueError
        end,
        l ++ [EvLlm (extract_prompt essay_text)])
  /\ (let prompt := Prompts.GRADING_PROMPT_format criteria_text essay_text in
      let final_message := content_text (agent prompt) in
      grade_essay criteria_text essay_text l =
        (match json_loads (strip (fenced_payload final_message)) with
         | Decodes v => Return v
         | Malformed => Return (raw_text_envelope final_message)
         | TooDeep => Raise RecursionError
         | TooLong => Raise ValueError
         end,
         l ++ [EvAgent prompt])).
Proof.
  split; [apply select_fenced_payload|].
  split; [apply fenced_payload_cases|].
  split; [apply parse_json_from_text_decoded|].
  split; [apply extract_references_outcome|apply grade_essay_outcome].
Qed.

(** C4, as amended.  The final message of the agent is flattened to one
    string: a string as it is, a list of parts by joining with newlines
    the text of each part, which is the part itself for a string and
    otherwise its text entry, or the empty string without one.  When
    the flattened message contains no fence and the decoder raises
    [JSONDecodeError] on it once trimmed, [grade_essay] returns the dict
    with [raw_response] the flattened message and [parse_error] true,
    and raises nothing. *)
Theorem grade_essay_raw_text_envelope (criteria_text essay_text : string) (l : log) :
  let prompt := Prompts.GRADING_PROMPT_format criteria_text essay_text in
  let final_message :=
    match agent prompt with
    | ContentStr s => s
    | ContentList parts =>
        join nl
          (map (fun p => match p with
                         | PartStr s => s
                         | PartDict (Some text) => text
                         | PartDict None => ""
                         end) parts)
    end in
  contains "```" final_message = false ->
  json_loads (strip final_message) = Malformed ->
  grade_essay criteria_text essay_text l =
    (Return (PDict [ ("raw_response", PStr final_message);
                     ("parse_error", PBool true) ]),
     l ++ [EvAgent prompt]).
Proof.
  intros prompt final_message Hfence Hjson.
  assert (Hflat : content_text (agent prompt) = final_message).
  { subst final_message. destruct (agent prompt) as [s|parts]; [done|].
    cbn. apply (f_equal (join nl)), map_ext. by intros [s|[text|]]. }
  rewrite grade_essay_outcome. fold prompt. rewrite Hflat. unfold decoded.
  by rewrite (fenced_payload_plain _ Hfence), Hjson.
Qed.

(** C5.  When the judge's reply decodes to an array of verdicts (dicts
    with a hashable reference entry), the verifier returns the records
    in their order: a record whose reference no verdict names keeps its
    [verified] and its [notes]; a record whose reference a verdict names
    takes [verified] and [notes] from the last such verdict ([False] and
    the notes it had where the verdict lacks the entry). *)
Theorem verifier_merges_matched_verdicts
    (references : list RefRecord) (verdicts : list pyval) (l : log) :
  has_urls references = true ->
  decoded (verifier_reply references) = Decodes (PList verdicts) ->
  forallb is_verdict verdicts = true ->
  exists out,
    verify_references_with_llm references l
      = (Return out, l ++ [EvLlm (verify_prompt references)])
    /\ Forall2
         (fun r r' =>
            reference r' = reference r
            /\ search_urls r' = search_urls r
            /\ match verdict_for verdicts (reference r) with
               | None => verified r' = verified r /\ notes r' = notes r
               | Some v =>
                   exists d,
                     v = PDict d
                     /\ verified r' = default (PBool false) (dict_get d "verified")
                     /\ notes r' = default (notes r) (dict_get d "notes")
               end)
         references out.
Proof.
  intros U D V. rewrite verify_with_urls by done. cbv zeta.
  rewrite D, (verdicts_never_fail _ V). eexists. split; [reflexivity|].
  apply Forall2_map_r, Forall_forall. intros r _. unfold merged.
  rewrite llm_map_of_lookup, lookup_empty.
  destruct (verdict_for verdicts (reference r)) as [v|] eqn:E; [|done].
  apply verdict_for_Some in E as [_ Hn]. unfold names in Hn.
  destruct v as [| | | | |?|d]; try done. cbn. eauto 10.
Qed.

(** C6, as amended.  When the judge's reply does not decode as JSON, the
    verifier appends the marker to the notes of every record and leaves
    [verified] as it was; when the reply decodes to a value that is not
    an array, the verifier returns the records as they were, with no
    marker. *)
Theorem verifier_marks_undecodable_reply (references : list RefRecord) (l : log) :
  has_urls references = true ->
  notes_are_text references = true ->
  let l1 := l ++ [EvLlm (verify_prompt references)] in
  (decoded (verifier_reply references) = Malformed ->
   exists out,
     verify_references_with_llm references l = (Return out, l1)
     /\ Forall2
          (fun r r' =>
             reference r' = reference r
             /\ search_urls r' = search_urls r
             /\ verified r' = verified r
             /\ exists s,
                 notes r = PStr s
                 /\ notes r' = PStr (s +:+ " (LLM verification failed to parse)"))
          references out)
  /\ (forall v,
        decoded (verifier_reply references) = Decodes v ->
        (forall items, v <> PList items) ->
        verify_references_with_llm references l = (Return references, l1)).
Proof.
  intros U T l1. rewrite verify_with_urls by done. cbv zeta. fold l1. split.
  - intros ->. exists (map marked references). split.
    + by apply mark_all_unparsed.
    + apply Forall2_map_r, Forall_forall. intros r Hr.
      unfold notes_are_text in T. rewrite forallb_forall in T.
      apply list_elem_of_In in Hr. specialize (T r Hr). unfold marked.
      destruct (notes r) as [| | | |s| |]; try done. cbn. eauto 10.
  - intros v -> Hv. destruct v as [| | | | |vs|]; try done.
    exfalso. by apply (Hv vs).
Qed.

(** C8, as amended.  When the verifier has returned, the judge gives to
    the prompt of the second run the reply it gave to the first, and that
    reply decodes as JSON, a second run returns the records of the first
    run unchanged. *)
Theorem verifier_idempotent_on_stable_reply
    (references : list RefRecord) (l : log) (out : list RefRecord) (l1 : log) :
  verify_references_with_llm references l = (Return out, l1) ->
  verifier_reply out = verifier_reply references ->
  decoded (verifier_reply references) <> Malformed ->
  forall l2, fst (verify_references_with_llm out l2) = Return out.
Proof.
  intros H R D l2. pose proof (verify_frame _ _ _ _ H) as F.
  apply has_urls_frame in F.
  destruct (has_urls references) eqn:U.
  - rewrite verify_with_urls in H by done. cbv zeta in H.
    rewrite verify_with_urls by done. cbv zeta. rewrite R.
    destruct (decoded (verifier_reply references)) as [v| | |]; [|done..].
    destruct v as [| | | | |vs|]; try done.
    destruct (first_failure vs); [done|]. injection H as <- _. cbn.
    f_equal. rewrite map_map. apply map_ext. intros r. apply merged_twice.
  - rewrite verify_without_urls in H by done. injection H as <- _.
    by rewrite verify_without_urls.
Qed.

(* ===================================================================== *)
(** ** Facts about the rest of the code *)
(* ===================================================================== *)

Lemma str_app_empty (a b : string) : a +:+ b = "" -> a = "" /\ b = "".
Proof. destruct a; [by rewrite str_app_nil_l|by rewrite str_app_cons]. Qed.

Lemma contains_app_r (t a s : string) :
  contains t s = true -> contains t (a +:+ s) = true.
Proof.
  intros H. apply contains_true in H as (u & v & P).
  apply partition_split in P. subst s. rewrite <- str_app_assoc.
  apply contains_app.
Qed.

Lemma contains_prefix (t r : string) : contains t (t +:+ r) = true.
Proof. rewrite <- (str_app_nil_l (t +:+ r)). apply contains_app. Qed.

Lemma contains_self (t : string) : contains t t = true.
Proof. rewrite <- (str_app_nil_r t) at 2. apply contains_prefix. Qed.

Lemma join_cons (sep x y : string) (rest : list string) :
  join sep (x :: y :: rest) = x +:+ sep +:+ join sep (y :: rest).
Proof. reflexivity. Qed.

Lemma join_contains (sep t : string) (xs : list string) :
  In t xs -> contains t (join sep xs) = true.
Proof.
  induction xs as [|x xs IH]; [done|]. intros [->|Hin].
  - destruct xs as [|y xs]; [apply contains_self|].
    rewrite join_cons. apply contains_prefix.
  - destruct xs as [|y xs]; [done|]. rewrite join_cons.
    apply contains_app_r, contains_app_r. by apply IH.
Qed.

Lemma join_empty (sep : string) (xs : list string) :
  Forall (fun x => x <> "") xs -> join sep xs = "" -> xs = [].
Proof.
  destruct 1 as [|x xs Hx Hxs]; [done|]. destruct xs as [|y xs].
  - cbn. done.
  - rewrite join_cons. intros H%str_app_empty. by destruct H.
Qed.

Lemma collect_pages_texts (reader_pages : list (option string)) (pages : list string) :
  collect_pages reader_pages pages = pages ++ page_texts reader_pages.
Proof.
  revert pages. induction reader_pages as [|page rest IH]; intros pages.
  - by rewrite app_nil_r.
  - cbn [collect_pages page_texts]. destruct page as [text|].
    + case_bool_decide.
      * cbn. apply IH.
      * cbn. rewrite IH. by rewrite <- List.app_assoc.
    + apply IH.
Qed.

Lemma page_texts_nonempty (reader_pages : list (option string)) :
  Forall (fun x => x <> "") (page_texts reader_pages).
Proof.
  induction reader_pages as [|page rest IH]; [constructor|].
  cbn [page_texts]. destruct page as [text|]; [|exact IH].
  case_bool_decide; [exact IH|]. by constructor.
Qed.

Lemma page_texts_nil (reader_pages : list (option string)) :
  page_texts reader_pages = [] <-> forallb textless reader_pages = true.
Proof.
  induction reader_pages as [|page rest IH]; [done|].
  cbn [page_texts forallb]. destruct page as [text|]; [|exact IH].
  unfold textless at 1. case_bool_decide; [exact IH|]. cbn. split; done.
Qed.

Lemma page_texts_In (reader_pages : list (option string)) (text : string) :
  In (Some text) reader_pages -> text <> "" -> In text (page_texts reader_pages).
Proof.
  intros Hin Hne. induction reader_pages as [|page rest IH]; [done|].
  cbn [page_texts]. destruct Hin as [->|Hin].
  - rewrite bool_decide_eq_false_2 by done. by left.
  - destruct page as [t|]; [|by apply IH].
    case_bool_decide; [by apply IH|]. right. by apply IH.
Qed.

Lemma page_texts_all (reader_pages : list (option string)) :
  forallb (fun page => negb (textless page)) reader_pages = true ->
  page_texts reader_pages = map (fun p => default "" p) reader_pages.
Proof.
  induction reader_pages as [|page rest IH]; [done|].
  cbn [forallb]. intros [Hp Hrest]%andb_true_iff.
  cbn [page_texts map]. destruct page as [text|]; [|done].
  cbn in Hp. apply negb_true_iff in Hp. rewrite Hp. cbn. f_equal. by apply IH.
Qed.

(** X12.  The text extracted from a PDF is empty exactly when no page has
    text: an empty result tells the caller that nothing could be read. *)
Theorem extract_pdf_text_empty_iff (reader_pages : list (option string)) :
  extract_pdf_text reader_pages = "" <-> forallb textless reader_pages = true.
Proof.
  unfold extract_pdf_text. rewrite collect_pages_texts, app_nil_l.
  rewrite <- page_texts_nil. split.
  - apply join_empty, page_texts_nonempty.
  - by intros ->.
Qed.

(** X13.  The text of every page is part of the text extracted from a PDF. *)
Theorem extract_pdf_text_keeps_every_text
    (reader_pages : list (option string)) (text : string) :
  In (Some text) reader_pages ->
  contains text (extract_pdf_text reader_pages) = true.
Proof.
  intros Hin. destruct (decide (text = "")) as [->|Hne].
  - by destruct (extract_pdf_text reader_pages).
  - unfold extract_pdf_text. rewrite collect_pages_texts, app_nil_l.
    by apply join_contains, page_texts_In.
Qed.

(** X14.  When every page has text, [extract_pdf_text] gives the text that the
    command line and the test build, the page texts joined by blank
    lines; the two differ only on pages without text, which the former
    skips and the latter joins as empty strings. *)
Theorem extract_pdf_text_agrees_with_command_line
    (reader_pages : list (option string)) :
  forallb (fun page => negb (textless page)) reader_pages = true ->
  extract_pdf_text reader_pages
  = join (nl +:+ nl) (map (fun p => default "" p) reader_pages).
Proof.
  intros H. unfold extract_pdf_text.
  by rewrite collect_pages_texts, app_nil_l, page_texts_all.
Qed.

Lemma numbered_listing (i : nat) (results : list string) (result_text : string) :
  numbered i results result_text = result_text +:+ listing i results.
Proof.
  revert i result_text. induction results as [|url rest IH]; intros i result_text.
  - cbn. by rewrite str_app_nil_r.
  - cbn [numbered listing]. rewrite IH. unfold numbered_line.
    by rewrite !str_app_assoc.
Qed.

Lemma listing_contains (i k : nat) (urls : list string) (url : string) :
  urls !! k = Some url ->
  contains (numbered_line (i + k) url) (listing i urls) = true.
Proof.
  revert i k. induction urls as [|u rest IH]; intros i k; [done|].
  destruct k as [|k]; cbn [listing].
  - intros [= ->]. rewrite Nat.add_0_r. apply contains_prefix.
  - intros H. apply contains_app_r.
    replace (i + S k) with (S i + k) by lia. by apply IH.
Qed.

(** What [search_reference] gives, by what the search does. *)
Lemma search_reference_outcome (ref : string) (l : log) :
  let outcome := web (length (searches l)) ref in
  search_reference ref l =
    (match outcome with
     | TimedOut =>
         Return ("Search timed out for '" +:+ ref
                   +:+ "'. Could not verify this reference.")
     | Failed cause =>
         Return ("Search failed for '" +:+ ref +:+ "': " +:+ cause
                   +:+ ". Could not verify this reference.")
     | Urls [] =>
         Return ("NO RESULTS FOUND for: '" +:+ ref +:+ "'. "
                   +:+ "This reference may not exist or may be incorrectly cited.")
     | Urls urls =>
         Return (("Search results for: '" +:+ ref +:+ "':" +:+ nl)
                   +:+ listing 1 urls +:+ nl
                   +:+ "Based on these results, assess whether the reference is real "
                   +:+ "and correctly cited (authors, year, title, journal).")
     | Hangs => Hang
     end, l ++ search_log ref outcome).
Proof.
  cbv zeta.
  unfold search_reference, try_except, bind, submit, leaving, try_except,
    bind, future_result, shutdown, sleep, emit, ret, raise, hang.
  destruct (web (length (searches l)) ref) as [[|u us]| |cause|]; cbn;
    rewrite <- ?List.app_assoc; try reflexivity.
  rewrite numbered_listing. unfold numbered_line. cbn [listing].
  unfold numbered_line. rewrite ?str_app_assoc. reflexivity.
Qed.

(** [needle] stands in the text of the goal between [a] and [b]. *)
Ltac found_between a b :=
  match goal with
  | |- contains ?needle ?text = true =>
      replace text with (a +:+ needle +:+ b)
        by (rewrite ?str_app_assoc; reflexivity);
      apply contains_app
  end.

(** X10.  The tool never raises.  After every search that ends (URLs,
    none, a timeout, a failure) it returns a summary, and the summary
    quotes the reference; with a search that never ends it does not
    return. *)
Theorem search_reference_never_raises (ref : string) (l : log) :
  exists res l',
    search_reference ref l = (res, l')
    /\ match web (length (searches l)) ref with
       | Hangs => res = Hang
       | Urls _ | TimedOut | Failed _ =>
           exists text,
             res = Return text /\ contains ("'" +:+ ref +:+ "'") text = true
       end.
Proof.
  rewrite search_reference_outcome. cbv zeta. eexists _, _.
  split; [reflexivity|].
  destruct (web (length (searches l)) ref) as [[|u us]| |cause|];
    [| | | |reflexivity]; eexists; (split; [reflexivity|]).
  - found_between "NO RESULTS FOUND for: "
      ". This reference may not exist or may be incorrectly cited.".
  - found_between "Search results for: "
      (":" +:+ nl +:+ listing 1 (u :: us) +:+ nl
         +:+ "Based on these results, assess whether the reference is real "
         +:+ "and correctly cited (authors, year, title, journal).").
  - found_between "Search timed out for " ". Could not verify this reference.".
  - found_between "Search failed for "
      (": " +:+ cause +:+ ". Could not verify this reference.").
Qed.

(** X11.  With URLs found, the summary lists each of them on a line of its
    own under its rank, counted from 1. *)
Theorem search_reference_lists_every_url
    (ref : string) (l : log) (urls : list string) (k : nat) (url : string) :
  web (length (searches l)) ref = Urls urls ->
  urls !! k = Some url ->
  exists text l',
    search_reference ref l = (Return text, l')
    /\ contains ("  " +:+ of_nat (S k) +:+ ". " +:+ url +:+ nl) text = true.
Proof.
  intros Hweb Hk. rewrite search_reference_outcome. cbv zeta. rewrite Hweb.
  destruct urls as [|u us]; [done|]. eexists _, _. split; [reflexivity|].
  pose proof (listing_contains 1 k (u :: us) url Hk) as Hc.
  apply contains_true in Hc as (a & b & P).
  apply partition_split in P. rewrite P. unfold numbered_line.
  change (1 + k) with (S k).
  found_between (("Search results for: '" +:+ ref +:+ "':" +:+ nl) +:+ a)
    (b +:+ nl
       +:+ "Based on these results, assess whether the reference is real "
       +:+ "and correctly cited (authors, year, title, journal).").
Qed.

Lemma llm_events_app (l1 l2 : log) :
  List.filter is_llm (l1 ++ l2) = List.filter is_llm l1 ++ List.filter is_llm l2.
Proof. apply List.filter_app. Qed.

(** X1.  The extractor asks the model once.  It returns no reference when
    the decoder raises [JSONDecodeError] or gives a value that is no
    array; from an array it returns one string per element, an element
    that is a string as it is.  It raises exactly when the decoder
    raises one of its other two errors, and then that error. *)
Theorem extractor_absorbs_malformed_replies (essay_text : string) (l : log) :
  exists res,
    extract_references_with_llm essay_text l
      = (res, l ++ [EvLlm (extract_prompt essay_text)])
    /\ match decoded (content_text (llm (extract_prompt essay_text))) with
       | Decodes (PList items) =>
           exists refs,
             res = Return refs
             /\ length refs = length items
             /\ forall i s, items !! i = Some (PStr s) -> refs !! i = Some s
       | Decodes _ | Malformed => res = Return []
       | TooDeep => res = Raise RecursionError
       | TooLong => res = Raise ValueError
       end.
Proof.
  rewrite extract_references_outcome. eexists. split; [reflexivity|].
  destruct (decoded _) as [v| | |]; [|done..].
  destruct v as [| | | | |items|]; try done. eexists. split; [reflexivity|].
  split.
  - by rewrite length_map.
  - intros i s Hi. rewrite list_lookup_fmap, Hi. done.
Qed.

(** X2.  When no record has a URL the verifier returns the records as they
    are and does not ask the judge. *)
Theorem verifier_without_urls_skips_the_judge
    (references : list RefRecord) (l : log) :
  forallb (fun r => bool_decide (search_urls r = [])) references = true ->
  verify_references_with_llm references l = (Return references, l).
Proof.
  intros H. apply verify_without_urls. unfold has_urls.
  induction references as [|r rs IH]; [done|]. cbn in *.
  apply andb_true_iff in H as [-> H]. cbn. by apply IH.
Qed.

(** X3.  Whenever the verifier returns, it returns as many records as it was
    given, in their order, each with its reference and its URLs. *)
Theorem verifier_keeps_references_and_urls
    (references : list RefRecord) (l : log) (out : list RefRecord) (l' : log) :
  verify_references_with_llm references l = (Return out, l') ->
  length out = length references
  /\ map reference out = map reference references
  /\ map search_urls out = map search_urls references.
Proof.
  intros H%verify_frame.
  induction H as [|r r' rs rs' [Hr Hu] _ IH]; [done|].
  destruct IH as (Hl & Hrs & Hus). cbn. by rewrite Hl, Hr, Hu, Hrs, Hus.
Qed.

(** X4.  With a record that has a URL and notes that are strings, the
    verifier asks the judge once and makes no search.  It raises in two
    cases only: the decoder raises [RecursionError] or [ValueError],
    which goes on as it is; or the reply decodes to an array with an
    element that is no dict with a hashable reference, which gives the
    [TypeError] or [KeyError] of the first such element. *)
Theorem verifier_raises_only_on_malformed_verdicts
    (references : list RefRecord) (l : log) :
  has_urls references = true ->
  notes_are_text references = true ->
  snd (verify_references_with_llm references l)
    = l ++ [EvLlm (verify_prompt references)]
  /\ forall e,
      fst (verify_references_with_llm references l) = Raise e
      <-> decoder_error (decoded (verifier_reply references)) = Some e
          \/ exists verdicts,
               decoded (verifier_reply references) = Decodes (PList verdicts)
               /\ first_failure verdicts = Some e.
Proof.
  intros U T. rewrite verify_with_urls by done. cbv zeta.
  destruct (decoded (verifier_reply references)) as [v| | |].
  - destruct v as [| | | | |vs|]; cbn;
      try (split; [done|]; intros e; split; [done|];
           by intros [[=]|(? & [=] & _)]).
    split; [done|]. intros e. destruct (first_failure vs) as [e'|] eqn:F.
    + split.
      * intros [= ->]. eauto.
      * intros [[=]|(vs' & [= <-] & F')]. congruence.
    + split; [done|]. intros [[=]|(vs' & [= <-] & F')]. congruence.
  - rewrite mark_all_unparsed by done. split; [done|]. intros e. split; [done|].
    by intros [[=]|(? & [=] & _)].
  - split; [done|]. intros e. cbn. split.
    + intros [= <-]. by left.
    + by intros [[= <-]|(? & [=] & _)].
  - split; [done|]. intros e. cbn. split.
    + intros [= <-]. by left.
    + by intros [[= <-]|(? & [=] & _)].
Qed.

(** X5.  When the extractor returns no reference, the pipeline returns no
    record after the one call to the model: it makes no search and does
    not ask the judge. *)
Theorem pipeline_without_references (essay_text : string) (l : log) :
  fst (extract_references_with_llm essay_text l) = Return [] ->
  verify_bibliography essay_text l
    = (Return [], l ++ [EvLlm (extract_prompt essay_text)]).
Proof.
  unfold verify_bibliography, bind.
  destruct (extract_references_with_llm essay_text l) as [res l1] eqn:E.
  pose proof E as E2. rewrite extract_references_outcome in E2.
  injection E2 as _ <-. cbn. by intros ->.
Qed.

(** X6.  When the extractor raises (the decoder's [RecursionError] or
    [ValueError]), the pipeline raises the same before any search.
    Otherwise it makes one search per extracted reference, in the order
    of extraction, up to the first search that never ends, with which
    it hangs.  When every search ends it returns records that carry the
    references in that order, or raises what the verifier raises: a
    [TypeError], a [KeyError], or an error of the decoder. *)
Theorem pipeline_searches_in_extraction_order (essay_text : string) (l : log) :
  exists res l',
    verify_bibliography essay_text l = (res, l')
    /\ match fst (extract_references_with_llm essay_text l) with
       | Return refs =>
           match first_hang (length (searches l)) refs with
           | Some k =>
               res = Hang
               /\ searches l' = searches l ++ map EvSearch (take (S k) refs)
           | None =>
               searches l' = searches l ++ map EvSearch refs
               /\ match res with
                  | Return out => map reference out = refs
                  | Raise e =>
                      e = TypeError \/ e = KeyError
                      \/ e = RecursionError \/ e = ValueError
                  | Hang => False
                  end
           end
       | Raise e =>
           res = Raise e /\ searches l' = searches l
           /\ (e = RecursionError \/ e = ValueError)
       | Hang => False
       end.
Proof. exact (verify_bibliography_outcome essay_text l). Qed.

(** X7.  The searcher makes its one search and calls no model.  After a
    search that ends it returns a record with [verified] false, a string
    as notes, and the URLs as the search gave them, none after a timeout
    or a failure; with a search that never ends it does not return. *)
Theorem searcher_record_invariants (ref : string) (l : log) :
  exists res l',
    search_single_reference ref l = (res, l')
    /\ searches l' = searches l ++ [EvSearch ref]
    /\ List.filter is_llm l' = List.filter is_llm l
    /\ match web (length (searches l)) ref with
       | Hangs => res = Hang
       | (Urls _ | TimedOut | Failed _) as outcome =>
           exists record note,
             res = Return record
             /\ verified record = PBool false
             /\ notes record = PStr note
             /\ search_urls record
                = match outcome with Urls urls => urls | _ => [] end
       end.
Proof.
  rewrite search_single_reference_outcome. cbv zeta. eexists _, _.
  split; [reflexivity|]. rewrite searches_app, search_log_searches, llm_events_app.
  split; [done|].
  destruct (web (length (searches l)) ref) as [[|u us]| |cause|]; cbn;
    rewrite ?app_nil_r; eauto 10.
Qed.

(** X8.  The two parsers agree on the text of the final message: where
    [_parse_json_from_text] returns a value, [grade_essay] returns that
    value; where it raises [JSONDecodeError], [grade_essay] returns the
    raw-text envelope; and where it raises another error, which is then
    the decoder's [RecursionError] or [ValueError], [grade_essay]
    raises the same. *)
Theorem parsers_agree (criteria_text essay_text : string) (l l0 : log) :
  let final_message :=
    content_text (agent (Prompts.GRADING_PROMPT_format criteria_text essay_text)) in
  match fst (_parse_json_from_text final_message l0) with
  | Return v => fst (grade_essay criteria_text essay_text l) = Return v
  | Raise JSONDecodeError =>
      fst (grade_essay criteria_text essay_text l)
      = Return (raw_text_envelope final_message)
  | Raise e =>
      (e = RecursionError \/ e = ValueError)
      /\ fst (grade_essay criteria_text essay_text l) = Raise e
  | Hang => False
  end.
Proof.
  cbv zeta. rewrite parse_json_from_text_decoded, grade_essay_outcome.
  cbn. destruct (decoded _); cbn; auto.
Qed.

Lemma startswith_no_head (h : ascii) (sep s : string) :
  occurs h s = false -> startswith (String h sep) s = false.
Proof.
  destruct s as [|c s]; [done|]. cbn. intros [Hc _]%orb_false_iff.
  apply bool_decide_eq_false in Hc. by rewrite decide_False by congruence.
Qed.

Lemma partition_no_head (h : ascii) (sep s : string) :
  occurs h s = false -> partition (String h sep) s = None.
Proof.
  intros H. pose proof (partition_skip h sep s "" H) as P.
  by rewrite str_app_nil_r in P.
Qed.

Lemma partition_at_head (sep r : string) :
  partition sep (sep +:+ r) = Some ("", r).
Proof.
  destruct (sep +:+ r) as [|c s] eqn:E; cbn; rewrite <- E;
    by rewrite startswith_app, drop_app_length.
Qed.

(** A fence after text without a backtick is where the text is cut. *)
Lemma before_fence (body x : string) :
  occurs "`" body = false -> before "```" (body +:+ "```" +:+ x) = body.
Proof.
  intros H. unfold before. rewrite (partition_skip "`" "``" body _ H).
  rewrite (partition_at_head "```" x). by rewrite str_app_nil_r.
Qed.

Lemma before_json_fence (body post : string) :
  occurs "`" body = false -> occurs "`" post = false ->
  before "```json" (body +:+ "```" +:+ post) = body
  \/ before "```json" (body +:+ "```" +:+ post) = body +:+ "```" +:+ post.
Proof.
  intros Hb Hp. unfold before.
  rewrite (partition_skip "`" "``json" body _ Hb).
  change ("```" +:+ post) with (String "`" (String "`" (String "`" post))).
  cbn [partition].
  destruct (startswith "```json" (String "`" (String "`" (String "`" post)))).
  - left. by rewrite str_app_nil_r.
  - right.
    assert (H2 : startswith "```json" (String "`" (String "`" post)) = false).
    { cbn. apply (startswith_no_head "`" "json" post Hp). }
    assert (H1 : startswith "```json" (String "`" post) = false).
    { cbn. apply (startswith_no_head "`" "`json" post Hp). }
    rewrite H2, H1. by rewrite (partition_no_head "`" "``json" post Hp).
Qed.

(** X9.  A message with one block between a json fence and a closing fence,
    and no backtick elsewhere, gives the text of the block, whatever
    stands before and after it. *)
Theorem single_json_fence_is_selected (pre body post : string) (l : log) :
  occurs "`" pre = false ->
  occurs "`" body = false ->
  occurs "`" post = false ->
  select_fenced (pre +:+ "```json" +:+ body +:+ "```" +:+ post) l
    = (Return body, l).
Proof.
  intros Hpre Hbody Hpost. rewrite select_fenced_payload. do 2 f_equal.
  unfold fenced_payload.
  rewrite (partition_skip "`" "``json" pre _ Hpre).
  rewrite (partition_at_head "```json").
  destruct (before_json_fence body post Hbody Hpost) as [->| ->].
  - unfold before. by rewrite (partition_no_head "`" "``" body Hbody).
  - by apply before_fence.
Qed.

(** ** Facts about the page and the program *)

(** X15.  The page starts a grading only with criteria and an essay that are
    not blank: its log is the log it had, or that log and one run of
    the agent on the prompt of two texts that do not trim to nothing. *)
Theorem page_grades_only_texts_that_are_not_blank
    (criteria_text_input : option string)
    (criteria_file essay_file : option UploadedFile) (clicked : bool) (l : log) :
  let l' := snd (page criteria_text_input criteria_file essay_file clicked l) in
  l' = l
  \/ exists criteria_text essay_text,
       l' = l ++ [EvAgent (Prompts.GRADING_PROMPT_format criteria_text essay_text)]
       /\ strip criteria_text <> ""
       /\ strip essay_text <> "".
Proof.
  cbv zeta. unfold page.
  destruct (pasted criteria_text_input || bool_decide (is_Some criteria_file));
    [|by left].
  destruct essay_file as [essay_upload|]; [|by left].
  destruct clicked; [|by left].
  destruct (if pasted criteria_text_input then _ else _) as [criteria_text|e|];
    [|by left..].
  case_bool_decide as Hc; [by left|]. case_bool_decide as He; [by left|].
  right. exists criteria_text, (extract_text_from_file essay_upload).
  split; [|done]. rewrite grade_essay_outcome. cbn.
  destruct (decoded _) as [v| | |]; cbn; [|done..].
  destruct v; cbn; try done. by destruct (truthy _).
Qed.

(** X16.  When the agent's final message has no fence and the decoder
    raises [JSONDecodeError] on it once trimmed, the page shows the
    caption, the warning and the message itself, and stops. *)
Theorem page_shows_the_raw_message
    (pasted_text : string) (criteria_file : option UploadedFile)
    (essay_upload : UploadedFile) (l : log) :
  let criteria_text := strip pasted_text in
  let essay_text := extract_text_from_file essay_upload in
  let final_message :=
    content_text (agent (Prompts.GRADING_PROMPT_format criteria_text essay_text)) in
  criteria_text <> "" ->
  strip essay_text <> "" ->
  contains "```" final_message = false ->
  json_loads (strip final_message) = Malformed ->
  exists spinner,
    page (Some pasted_text) criteria_file (Some essay_upload) true l
    = ([ StButton "Grade Essay"; StSpinner spinner; StCaption (caption elapsed);
         StWarning "The agent returned a non-structured response. Showing raw output:";
         StMarkdown (PStr final_message) ],
       Stops,
       l ++ [EvAgent (Prompts.GRADING_PROMPT_format criteria_text essay_text)]).
Proof.
  cbv zeta. intros Hc He Hf Hj.
  assert (Hp : pasted (Some pasted_text) = true).
  { unfold pasted.
    rewrite (bool_decide_eq_false_2 (strip pasted_text = "")) by done.
    rewrite andb_true_r. apply negb_true_iff, bool_decide_eq_false.
    intros ->. by apply Hc. }
  unfold page. rewrite Hp. cbn [orb default from_option]. unfold id.
  rewrite strip_strip.
  rewrite bool_decide_eq_false_2 by done.
  rewrite bool_decide_eq_false_2 by done.
  rewrite grade_essay_outcome. cbv zeta. unfold decoded.
  rewrite (fenced_payload_plain _ Hf), Hj. cbn.
  eexists. reflexivity.
Qed.

(** X17.  When the agent's final message decodes to a JSON value that is not
    an object, the page raises [AttributeError] once the grading is
    done, at the look-up of [parse_error]. *)
Theorem page_raises_on_a_result_that_is_no_object
    (pasted_text : string) (criteria_file : option UploadedFile)
    (essay_upload : UploadedFile) (l : log) (v : pyval) :
  let criteria_text := strip pasted_text in
  let essay_text := extract_text_from_file essay_upload in
  let final_message :=
    content_text (agent (Prompts.GRADING_PROMPT_format criteria_text essay_text)) in
  criteria_text <> "" ->
  strip essay_text <> "" ->
  decoded final_message = Decodes v ->
  match v with PDict _ => False | _ => True end ->
  exists spinner,
    page (Some pasted_text) criteria_file (Some essay_upload) true l
    = ([ StButton "Grade Essay"; StSpinner spinner; StCaption (caption elapsed) ],
       PageRaises AttributeError,
       l ++ [EvAgent (Prompts.GRADING_PROMPT_format criteria_text essay_text)]).
Proof.
  cbv zeta. intros Hc He Hj Hv.
  assert (Hp : pasted (Some pasted_text) = true).
  { unfold pasted.
    rewrite (bool_decide_eq_false_2 (strip pasted_text = "")) by done.
    rewrite andb_true_r. apply negb_true_iff, bool_decide_eq_false.
    intros ->. by apply Hc. }
  unfold page. rewrite Hp. cbn [orb default from_option]. unfold id.
  rewrite strip_strip.
  rewrite bool_decide_eq_false_2 by done.
  rewrite bool_decide_eq_false_2 by done.
  rewrite grade_essay_outcome. cbv zeta. rewrite Hj.
  destruct v; try done; cbn; eexists; reflexivity.
Qed.

(** X18.  The program ends without a printed line in two cases only: run
    with the flag [--essay] and no path after it, where it raises
    [IndexError] (the check of the number of arguments lets that run
    through); and run with [--essay] and a path that [PdfReader]
    refuses, where it raises the reader's exception.  In both it has
    called neither the model nor the search. *)
Theorem main_prints_nothing_iff_no_essay_is_read (argv : list string) (l : log) :
  (exists how l', main argv l = ([], how, l'))
  <-> (exists prog,
         argv = [prog; "--essay"] /\ main argv l = ([], Raises IndexError, l))
      \/ (exists prog pdf_path more e,
            argv = prog :: "--essay" :: pdf_path :: more
            /\ reader pdf_path = Refuses e
            /\ main argv l = ([], Raises e, l)).
Proof.
  split.
  - intros (how & l' & H). unfold main in H.
    destruct argv as [|prog [|first rest]]; [done|done|].
    cbn [length Nat.ltb Nat.leb lookup list_lookup] in H.
    case_bool_decide as Hf.
    + subst first. destruct rest as [|pdf_path more]; [left; by exists prog|].
      cbn [lookup list_lookup] in H. right.
      destruct (reader pdf_path) as [pages|e] eqn:R.
      * destruct (verify_bibliography _ l) as [[[|r results]|e|] l1]; done.
      * exists prog, pdf_path, more, e. split; [done|]. split; [done|].
        unfold main. cbn [length Nat.ltb Nat.leb lookup list_lookup].
        by rewrite R.
    + destruct (search_single_reference _ l) as [[r|e|] l1]; done.
  - intros [(prog & _ & H)|(prog & pdf_path & more & e & _ & _ & H)]; eauto.
Qed.

(** X19.  Run on a reference (one or more arguments, the first of them not
    the flag [--essay]), the program prints the search line, searches
    once for the arguments joined by spaces and calls no model.  After
    a search that ends it prints the record of that reference and ends
    without raising; with a search that never ends it never ends. *)
Theorem main_searches_the_joined_arguments
    (prog first : string) (rest : list string) (l : log) :
  first <> "--essay" ->
  let ref := join " " (first :: rest) in
  exists printed how l',
    main (prog :: first :: rest) l = (printed, how, l')
    /\ searches l' = searches l ++ [EvSearch ref]
    /\ List.filter is_llm l' = List.filter is_llm l
    /\ match web (length (searches l)) ref with
       | Hangs =>
           printed = ["Searching for: " +:+ ref +:+ nl] /\ how = NeverEnds
       | Urls _ | TimedOut | Failed _ =>
           exists record,
             printed = [ "Searching for: " +:+ ref +:+ nl;
                         json_dumps (record_dict record) ]
             /\ how = Ends
             /\ reference record = ref
       end.
Proof.
  intros Hfirst ref. unfold main. cbn [length Nat.ltb Nat.leb lookup list_lookup].
  rewrite bool_decide_eq_false_2 by done. cbn [List.skipn]. fold ref.
  rewrite search_single_reference_outcome. cbv zeta.
  assert (Hlog : forall outcome,
            searches (l ++ search_log ref outcome) = searches l ++ [EvSearch ref]
            /\ List.filter is_llm (l ++ search_log ref outcome)
               = List.filter is_llm l).
  { intros outcome. rewrite searches_app, search_log_searches, llm_events_app.
    split; [done|]. destruct outcome; cbn; by rewrite app_nil_r. }
  destruct (web (length (searches l)) ref) as [[|u us]| |cause|] eqn:W;
    cbn [searched]; eexists _, _, _; (split; [reflexivity|]);
    (split; [apply Hlog|]); (split; [apply Hlog|]); eauto.
Qed.

(** X20.  Run with [--essay] and a path, the program raises what the
    reader raises when it refuses the file, with nothing printed.
    Otherwise it runs the pipeline on the text of the pages joined by
    blank lines, after its two opening lines.  When the extractor
    raises, the program raises the same; when a search never ends, it
    never ends, after the searches up to that one.  Otherwise it makes
    one search per extracted reference, in order, and ends after the
    line that says no reference was found or after three lines per
    record, or raises what the verifier raises.  It never exits with a
    status. *)
Theorem main_reports_three_lines_per_record
    (prog pdf_path : string) (more : list string) (l : log) :
  exists printed how l',
    main (prog :: "--essay" :: pdf_path :: more) l = (printed, how, l')
    /\ match reader pdf_path with
       | Refuses e => printed = [] /\ how = Raises e /\ l' = l
       | Opens pages =>
           let text := join (nl +:+ nl) (map (fun p => default "" p) pages) in
           match fst (extract_references_with_llm text l) with
           | Raise e =>
               length printed = 2 /\ how = Raises e
               /\ searches l' = searches l
               /\ (e = RecursionError \/ e = ValueError)
           | Hang => False
           | Return refs =>
               match first_hang (length (searches l)) refs with
               | Some k =>
                   length printed = 2 /\ how = NeverEnds
                   /\ searches l' = searches l ++ map EvSearch (take (S k) refs)
               | None =>
                   searches l' = searches l ++ map EvSearch refs
                   /\ match how with
                      | Ends =>
                          length printed
                          = match refs with
                            | [] => 3
                            | _ :: _ => 2 + 3 * length refs
                            end
                      | Raises e =>
                          length printed = 2
                          /\ (e = TypeError \/ e = KeyError
                              \/ e = RecursionError \/ e = ValueError)
                      | Exits _ | NeverEnds => False
                      end
               end
           end
       end.
Proof.
  unfold main. cbn [length Nat.ltb Nat.leb lookup list_lookup].
  rewrite bool_decide_eq_true_2 by done.
  destruct (reader pdf_path) as [pages|e]; [|by eexists _, _, _].
  cbv zeta. set (text := join (nl +:+ nl) (map (fun p => default "" p) pages)).
  destruct (verify_bibliography_outcome text l) as (res & l' & Hv & Hcase).
  rewrite Hv.
  assert (Hlen : forall rs : list RefRecord,
             length (concat (map report rs)) = 3 * length rs).
  { induction rs as [|x rs IH]; [done|]. cbn [map concat].
    rewrite length_app, IH. cbn. lia. }
  destruct (fst (extract_references_with_llm text l)) as [refs|e|]; [| |done].
  - destruct (first_hang (length (searches l)) refs) as [k|].
    + destruct Hcase as [-> Hlog]. by eexists _, _, _.
    + destruct Hcase as [Hlog Hres].
      destruct res as [[|r results]|e|]; [| | |done];
        eexists _, _, _; (split; [reflexivity|]); (split; [exact Hlog|]).
      * cbn in Hres. by rewrite <- Hres.
      * rewrite <- Hres. rewrite length_app, Hlen, length_map. cbn. lia.
      * done.
  - destruct Hcase as (-> & Hlog & He). by eexists _, _, _.
Qed.

End Program.

(* ===================================================================== *)
(** * The properties at concrete inputs *)
(* ===================================================================== *)

(** C1.  The specification has the searcher return a record whatever
    the search does, a search that outlasts the timeout included.  With
    a search that never ends the wait of 10 seconds times out and the
    record with its note is ready, but the [return] leaves the [with]
    block of the executor, whose exit waits for the search:
    [search_single_reference] does not return, and neither does the
    tool [search_reference]. *)
Theorem search_single_reference_waits_for_a_hung_search :
  search_single_reference Scenario.web_hangs Scenario.smith []
  = (Hang, [EvSearch Scenario.smith])
  /\ search_reference Scenario.web_hangs Scenario.smith []
     = (Hang, [EvSearch Scenario.smith]).
Proof. split; vm_compute; reflexivity. Qed.

(** C2, as stated, fails: after a search that times out neither
    [search_single_reference] nor [search_reference] sleeps. *)
Lemma sleep_is_skipped_on_timeout :
  ~ In (EvSleep (1 # 2))
      (snd (search_single_reference Scenario.web_times_out Scenario.smith []))
  /\ ~ In (EvSleep (1 # 2))
         (snd (search_reference Scenario.web_times_out Scenario.smith [])).
Proof. split; vm_compute; intros [H|[]]; discriminate H. Qed.

(** C3, as stated, fails: the selection is not always the text between
    the first json opening and the next fence after it.  In
    [```json1````json] the next fence follows the [1], and the selection
    is [1`]: the split at the second json opening comes first. *)
Lemma fence_selection_cuts_at_the_next_json_opening :
  ~ (forall text pre rest body post l,
       splits_at_first "```json" text pre rest ->
       splits_at_first "```" rest body post ->
       select_fenced text l = (Return body, l)).
Proof.
  intros H.
  specialize (H "```json1````json" "" "1````json" "1" "`json" []).
  assert (E : select_fenced "```json1````json" [] = (Return "1", [])).
  { apply H; by apply partition_splits. }
  vm_compute in E. discriminate E.
Qed.

(** C4, as stated, fails: a final message in four parts, its textual
    parts concatenated, has no fence and is no JSON, and the
    [raw_response] that [grade_essay] returns is not that text: the
    parts are joined with newlines, the part without text as an empty
    line. *)
Lemma raw_response_joins_the_parts_with_newlines :
  let flattened := concatenated_parts Scenario.refusal_in_parts in
  let returned :=
    fst (grade_essay Json.loads (fun _ => Scenario.refusal_in_parts)
           "Clarity (10 pts)" "An essay." []) in
  flattened = "I am unableto gradethis essay."
  /\ PyStr.contains "```" flattened = false
  /\ Json.loads (PyStr.strip flattened) = Malformed
  /\ returned
     = Return (PDict [ ("raw_response",
                        PStr ("I am unable" +:+ PyStr.nl +:+ "to grade"
                                +:+ PyStr.nl +:+ PyStr.nl +:+ "this essay."));
                       ("parse_error", PBool true) ])
  /\ returned
     <> Return (PDict [ ("raw_response", PStr flattened);
                        ("parse_error", PBool true) ]).
Proof.
  cbv zeta. split; [vm_compute; reflexivity|]. split; [vm_compute; reflexivity|].
  split; [vm_compute; reflexivity|]. split; [vm_compute; reflexivity|].
  vm_compute. intros H. discriminate H.
Qed.

(** C4, as amended, on a final message in four parts that is no JSON: a
    string, a dict with text, a dict without text, a string. *)
Lemma grade_essay_raw_text_envelope_witness :
  let final_message :=
    ("I am unable" +:+ PyStr.nl +:+ "to grade" +:+ PyStr.nl +:+ PyStr.nl
       +:+ "this essay.") in
  PyStr.contains "```" final_message = false
  /\ Json.loads (PyStr.strip final_message) = Malformed
  /\ fst (grade_essay Json.loads (fun _ => Scenario.refusal_in_parts)
            "Clarity (10 pts)" "An essay." [])
     = Return (PDict [ ("raw_response", PStr final_message);
                       ("parse_error", PBool true) ]).
Proof.
  cbv zeta. split; [vm_compute; reflexivity|]. split; [vm_compute; reflexivity|].
  rewrite (grade_essay_raw_text_envelope Json.loads
             (fun _ => Scenario.refusal_in_parts)
             "Clarity (10 pts)" "An essay." []).
  - vm_compute. reflexivity.
  - vm_compute. reflexivity.
  - vm_compute. reflexivity.
Defined.

(** C5 on two records and a reply with a verdict on the first. *)
Lemma verifier_merges_matched_verdicts_witness :
  let references := [Scenario.smith_found; Scenario.lecun_found] in
  let llm := Scenario.replies Scenario.verdict_on_smith in
  has_urls references = true
  /\ decoded Json.loads (verifier_reply Json.dumps llm references)
     = Decodes (PList Scenario.smith_verdicts)
  /\ forallb is_verdict Scenario.smith_verdicts = true
  /\ exists out,
      fst (verify_references_with_llm Json.loads Json.dumps llm references [])
      = Return out
      /\ map verified out = [PBool true; PBool false]
      /\ map notes out
         = [PStr "Confirmed by nature.com."; PStr "Found 1 search results."].
Proof.
  cbv zeta. split; [vm_compute; reflexivity|].
  split; [vm_compute; reflexivity|]. split; [vm_compute; reflexivity|].
  destruct (verifier_merges_matched_verdicts Json.loads Json.dumps
              (Scenario.replies Scenario.verdict_on_smith)
              [Scenario.smith_found; Scenario.lecun_found]
              Scenario.smith_verdicts [])
    as (out & Hrun & _).
  - vm_compute. reflexivity.
  - vm_compute. reflexivity.
  - vm_compute. reflexivity.
  - exists out. rewrite Hrun. split; [reflexivity|].
    vm_compute in Hrun. injection Hrun as <-. split; reflexivity.
Defined.

(** C6, as stated, fails: a reply that decodes to a JSON object, not an
    array, leaves the notes of the records without the marker. *)
Lemma non_array_reply_leaves_no_marker :
  Json.loads Scenario.object_reply = Decodes (PDict [("error", PStr "no verdicts")])
  /\ fst (verify_references_with_llm Json.loads Json.dumps
            (Scenario.replies Scenario.object_reply) [Scenario.smith_found] [])
     = Return [Scenario.smith_found]
  /\ notes Scenario.smith_found = PStr "Found 1 search results.".
Proof. repeat split; vm_compute; reflexivity. Qed.

(** C6, as amended, on two records and a reply in plain prose. *)
Lemma verifier_marks_undecodable_reply_witness :
  let references := [Scenario.smith_found; Scenario.lecun_found] in
  let llm := Scenario.replies "I could not check these references." in
  has_urls references = true
  /\ notes_are_text references = true
  /\ decoded Json.loads (verifier_reply Json.dumps llm references) = Malformed
  /\ exists out,
      fst (verify_references_with_llm Json.loads Json.dumps llm references [])
      = Return out
      /\ map verified out = [PBool false; PBool false]
      /\ map notes out
         = [PStr "Found 1 search results. (LLM verification failed to parse)";
            PStr "Found 1 search results. (LLM verification failed to parse)"].
Proof.
  cbv zeta. split; [vm_compute; reflexivity|].
  split; [vm_compute; reflexivity|]. split; [vm_compute; reflexivity|].
  destruct (verifier_marks_undecodable_reply Json.loads Json.dumps
              (Scenario.replies "I could not check these references.")
              [Scenario.smith_found; Scenario.lecun_found] [])
    as [Hnone _].
  - vm_compute. reflexivity.
  - vm_compute. reflexivity.
  - destruct Hnone as (out & Hrun & _); [vm_compute; reflexivity|].
    exists out. rewrite Hrun. split; [reflexivity|].
    vm_compute in Hrun. injection Hrun as <-. split; reflexivity.
Defined.

(** C7.  The specification lets no stage raise on malformed model
    output; the verifier does: on a reply that decodes to an array of
    strings it raises [TypeError]. *)
Theorem verifier_raises_on_an_array_of_sentences :
  Json.loads Scenario.sentences_reply
  = Decodes (PList [PStr "The reference appears to be real."])
  /\ fst (verify_references_with_llm Json.loads Json.dumps
            (Scenario.replies Scenario.sentences_reply) [Scenario.smith_found] [])
     = Raise TypeError.
Proof. split; vm_compute; reflexivity. Qed.

(** C8, as stated, fails: with a judge that gives the same undecodable
    reply to every prompt, the second run appends the marker a second
    time. *)
Lemma second_run_appends_a_second_marker :
  let llm := Scenario.replies "I could not check these references." in
  exists once twice,
    fst (verify_references_with_llm Json.loads Json.dumps llm
           [Scenario.smith_found] []) = Return once
    /\ fst (verify_references_with_llm Json.loads Json.dumps llm once [])
       = Return twice
    /\ map search_urls once = map search_urls [Scenario.smith_found]
    /\ map notes once
       = [PStr "Found 1 search results. (LLM verification failed to parse)"]
    /\ map notes twice
       = [PStr ("Found 1 search results. (LLM verification failed to parse)"
                  +:+ " (LLM verification failed to parse)")]
    /\ map notes twice <> map notes once.
Proof.
  cbv zeta. eexists _, _. split; [vm_compute; reflexivity|].
  split; [vm_compute; reflexivity|]. split; [vm_compute; reflexivity|].
  split; [vm_compute; reflexivity|]. split; [vm_compute; reflexivity|].
  vm_compute. intros H. discriminate H.
Qed.

(** C8, as amended, on two records and a judge with one fixed reply. *)
Lemma verifier_idempotent_on_stable_reply_witness :
  let references := [Scenario.smith_found; Scenario.lecun_found] in
  let llm := Scenario.replies Scenario.verdict_on_smith in
  exists out l1,
    verify_references_with_llm Json.loads Json.dumps llm references []
    = (Return out, l1)
    /\ verifier_reply Json.dumps llm out = verifier_reply Json.dumps llm references
    /\ decoded Json.loads (verifier_reply Json.dumps llm references) <> Malformed
    /\ fst (verify_references_with_llm Json.loads Json.dumps llm out l1)
       = Return out.
Proof.
  cbv zeta. eexists _, _. split; [vm_compute; reflexivity|].
  split; [vm_compute; reflexivity|]. split; [vm_compute; discriminate|].
  eapply (verifier_idempotent_on_stable_reply Json.loads Json.dumps
            (Scenario.replies Scenario.verdict_on_smith)
            [Scenario.smith_found; Scenario.lecun_found] []).
  - vm_compute. reflexivity.
  - vm_compute. reflexivity.
  - vm_compute. discriminate.
Defined.

(** C9.  The specification has the pipeline return one record per
    extracted reference; with one reference extracted, one URL found and
    a verification reply that is an array of sentences,
    [verify_bibliography] raises [TypeError] and returns no record. *)
Theorem pipeline_raises_on_an_array_of_sentences :
  fst (extract_references_with_llm Json.loads Json.repr Scenario.extracts_then_chats
         "An essay." [])
  = Return [Scenario.smith]
  /\ fst (verify_bibliography Json.loads Json.dumps Json.repr
            Scenario.extracts_then_chats Scenario.web_finds_one "An essay." [])
     = Raise TypeError.
Proof. split; vm_compute; reflexivity. Qed.

(** C10.  The verifier is to return the list of its records for every
    reply; on a reply whose verdict has no reference entry it raises
    [KeyError] and returns no list. *)
Theorem verifier_raises_on_a_verdict_without_reference :
  Json.loads Scenario.misnamed_reply
  = Decodes (PList [PDict [("ref", PStr Scenario.smith); ("verified", PBool true)]])
  /\ fst (verify_references_with_llm Json.loads Json.dumps
            (Scenario.replies Scenario.misnamed_reply) [Scenario.smith_found] [])
     = Raise KeyError.
Proof. split; vm_compute; reflexivity. Qed.

(** X2 on a record whose search timed out. *)
Lemma verifier_without_urls_skips_the_judge_witness :
  forallb (fun r => bool_decide (search_urls r = [])) [Scenario.smith_timed_out]
  = true
  /\ verify_references_with_llm Json.loads Json.dumps
       (Scenario.replies Scenario.verdict_on_smith) [Scenario.smith_timed_out] []
     = (Return [Scenario.smith_timed_out], []).
Proof.
  split; [vm_compute; reflexivity|].
  apply (verifier_without_urls_skips_the_judge Json.loads Json.dumps
           (Scenario.replies Scenario.verdict_on_smith)
           [Scenario.smith_timed_out] []).
  vm_compute. reflexivity.
Defined.

(** X3 on two records and a reply with a verdict on the first. *)
Lemma verifier_keeps_references_and_urls_witness :
  let references := [Scenario.smith_found; Scenario.lecun_found] in
  exists out l',
    verify_references_with_llm Json.loads Json.dumps
      (Scenario.replies Scenario.verdict_on_smith) references []
    = (Return out, l')
    /\ length out = length references
    /\ map reference out = map reference references
    /\ map search_urls out = map search_urls references.
Proof.
  cbv zeta. eexists _, _. split; [vm_compute; reflexivity|].
  eapply (verifier_keeps_references_and_urls Json.loads Json.dumps
            (Scenario.replies Scenario.verdict_on_smith)
            [Scenario.smith_found; Scenario.lecun_found] []).
  vm_compute. reflexivity.
Defined.

(** X4 on two records and a reply that is an array of sentences. *)
Lemma verifier_raises_only_on_malformed_verdicts_witness :
  let references := [Scenario.smith_found; Scenario.lecun_found] in
  let llm := Scenario.replies Scenario.sentences_reply in
  has_urls references = true
  /\ notes_are_text references = true
  /\ snd (verify_references_with_llm Json.loads Json.dumps llm references [])
     = [] ++ [EvLlm (verify_prompt Json.dumps references)]
  /\ fst (verify_references_with_llm Json.loads Json.dumps llm references [])
     = Raise TypeError.
Proof.
  cbv zeta. split; [vm_compute; reflexivity|]. split; [vm_compute; reflexivity|].
  destruct (verifier_raises_only_on_malformed_verdicts Json.loads Json.dumps
              (Scenario.replies Scenario.sentences_reply)
              [Scenario.smith_found; Scenario.lecun_found] [])
    as [Hlog Hraise].
  - vm_compute. reflexivity.
  - vm_compute. reflexivity.
  - split; [exact Hlog|]. apply Hraise. right.
    exists [PStr "The reference appears to be real."].
    split; vm_compute; reflexivity.
Defined.

(** X5 on a model that finds no reference. *)
Lemma pipeline_without_references_witness :
  fst (extract_references_with_llm Json.loads Json.repr (Scenario.replies "[]")
         "An essay." [])
  = Return []
  /\ verify_bibliography Json.loads Json.dumps Json.repr (Scenario.replies "[]")
       Scenario.web_finds_one "An essay." []
     = (Return [], [] ++ [EvLlm (extract_prompt "An essay.")]).
Proof.
  split; [vm_compute; reflexivity|].
  apply (pipeline_without_references Json.loads Json.dumps Json.repr
           (Scenario.replies "[]") Scenario.web_finds_one "An essay." []).
  vm_compute. reflexivity.
Defined.

(** X9 on a json block between two sentences. *)
Lemma single_json_fence_is_selected_witness :
  occurs "`" Scenario.fenced_before = false
  /\ occurs "`" Scenario.fenced_body = false
  /\ occurs "`" Scenario.fenced_after = false
  /\ select_fenced
       (Scenario.fenced_before +:+ "```json" +:+ Scenario.fenced_body
          +:+ "```" +:+ Scenario.fenced_after) []
     = (Return Scenario.fenced_body, []).
Proof.
  split; [vm_compute; reflexivity|]. split; [vm_compute; reflexivity|].
  split; [vm_compute; reflexivity|].
  apply (single_json_fence_is_selected Scenario.fenced_before
           Scenario.fenced_body Scenario.fenced_after []);
    vm_compute; reflexivity.
Defined.

(** X11 on a search that finds one URL. *)
Lemma search_reference_lists_every_url_witness :
  Scenario.web_finds_one (length (searches [])) Scenario.smith
  = Urls ["https://www.nature.com/articles/nature14539"]
  /\ ["https://www.nature.com/articles/nature14539"] !! 0
     = Some "https://www.nature.com/articles/nature14539"
  /\ exists text l',
      search_reference Scenario.web_finds_one Scenario.smith [] = (Return text, l')
      /\ PyStr.contains
           ("  " +:+ PyStr.of_nat 1 +:+ ". "
              +:+ "https://www.nature.com/articles/nature14539" +:+ PyStr.nl)
           text = true.
Proof.
  split; [reflexivity|]. split; [reflexivity|].
  apply (search_reference_lists_every_url Scenario.web_finds_one Scenario.smith []
           ["https://www.nature.com/articles/nature14539"] 0
           "https://www.nature.com/articles/nature14539");
    reflexivity.
Defined.

(** X13 on the last page of an essay of four pages. *)
Lemma extract_pdf_text_keeps_every_text_witness :
  In (Some ("References" +:+ PyStr.nl +:+ Scenario.smith)) Scenario.essay_pages
  /\ PyStr.contains ("References" +:+ PyStr.nl +:+ Scenario.smith)
       (extract_pdf_text Scenario.essay_pages) = true.
Proof.
  split; [vm_compute; tauto|].
  apply (extract_pdf_text_keeps_every_text Scenario.essay_pages).
  vm_compute. tauto.
Defined.

(** X14 on two pages with text. *)
Lemma extract_pdf_text_agrees_with_command_line_witness :
  let pages := [Some "Introduction"; Some "References"] in
  forallb (fun page => negb (textless page)) pages = true
  /\ extract_pdf_text pages
     = PyStr.join (PyStr.nl +:+ PyStr.nl) (map (fun p => default "" p) pages).
Proof.
  cbv zeta. split; [vm_compute; reflexivity|].
  apply (extract_pdf_text_agrees_with_command_line
           [Some "Introduction"; Some "References"]).
  vm_compute. reflexivity.
Defined.

(** X16 on pasted criteria, an essay in a PDF and an agent that refuses. *)
Lemma page_shows_the_raw_message_witness :
  let essay_text := extract_text_from_file Scenario.lower_ascii Scenario.essay_upload in
  let final_message :=
    "I am unable to grade" +:+ PyStr.nl +:+ PyStr.nl +:+ "this essay." in
  PyStr.strip " Clarity (10 pts) " <> ""
  /\ PyStr.strip essay_text <> ""
  /\ PyStr.contains "```" final_message = false
  /\ Json.loads (PyStr.strip final_message) = Malformed
  /\ exists spinner,
      page Json.loads (fun _ => Scenario.refusal) Scenario.lower_ascii
        (fun _ => true) 75 (Some " Clarity (10 pts) ") None
        (Some Scenario.essay_upload) true []
      = ([ StButton "Grade Essay"; StSpinner spinner; StCaption (caption 75);
           StWarning "The agent returned a non-structured response. Showing raw output:";
           StMarkdown (PStr final_message) ],
         Stops,
         [] ++ [EvAgent (Prompts.GRADING_PROMPT_format "Clarity (10 pts)" essay_text)]).
Proof.
  cbv zeta. split; [vm_compute; discriminate|]. split; [vm_compute; discriminate|].
  split; [vm_compute; reflexivity|]. split; [vm_compute; reflexivity|].
  apply (page_shows_the_raw_message Json.loads (fun _ => Scenario.refusal)
           Scenario.lower_ascii (fun _ => true) 75 " Clarity (10 pts) " None
           Scenario.essay_upload []).
  - vm_compute. discriminate.
  - vm_compute. discriminate.
  - vm_compute. reflexivity.
  - vm_compute. reflexivity.
Defined.

(** X17 on an agent whose final message is a JSON array. *)
Lemma page_raises_on_a_result_that_is_no_object_witness :
  let essay_text := extract_text_from_file Scenario.lower_ascii Scenario.essay_upload in
  PyStr.strip " Clarity (10 pts) " <> ""
  /\ PyStr.strip essay_text <> ""
  /\ decoded Json.loads "[7, 10]" = Decodes (PList [PInt 7; PInt 10])
  /\ exists spinner,
      page Json.loads (Scenario.replies "[7, 10]") Scenario.lower_ascii
        (fun _ => true) 75 (Some " Clarity (10 pts) ") None
        (Some Scenario.essay_upload) true []
      = ([ StButton "Grade Essay"; StSpinner spinner; StCaption (caption 75) ],
         PageRaises AttributeError,
         [] ++ [EvAgent (Prompts.GRADING_PROMPT_format "Clarity (10 pts)" essay_text)]).
Proof.
  cbv zeta. split; [vm_compute; discriminate|]. split; [vm_compute; discriminate|].
  split; [vm_compute; reflexivity|].
  apply (page_raises_on_a_result_that_is_no_object Json.loads
           (Scenario.replies "[7, 10]") Scenario.lower_ascii (fun _ => true) 75
           " Clarity (10 pts) " None Scenario.essay_upload []
           (PList [PInt 7; PInt 10])).
  - vm_compute. discriminate.
  - vm_compute. discriminate.
  - vm_compute. reflexivity.
  - exact I.
Defined.

(** X19 on a reference given in three arguments, with a search that
    finds one URL. *)
Lemma main_searches_the_joined_arguments_witness :
  "Smith," <> "--essay"
  /\ exists printed how l',
      main Json.loads Json.dumps Json.repr (Scenario.replies "[]")
        Scenario.web_finds_one (fun _ => true) (fun _ => Opens [])
        ["bibliography.py"; "Smith,"; "J."; "(2020)."] []
      = (printed, how, l')
      /\ searches l' = searches [] ++ [EvSearch "Smith, J. (2020)."]
      /\ List.filter is_llm l' = List.filter is_llm []
      /\ exists record,
          printed = [ "Searching for: " +:+ "Smith, J. (2020)." +:+ PyStr.nl;
                      Json.dumps (record_dict record) ]
          /\ how = Ends
          /\ reference record = "Smith, J. (2020).".
Proof.
  split; [discriminate|].
  apply (main_searches_the_joined_arguments Json.loads Json.dumps Json.repr
           (Scenario.replies "[]") Scenario.web_finds_one (fun _ => true)
           (fun _ => Opens []) "bibliography.py" "Smith," ["J."; "(2020)."] []).
  discriminate.
Defined.
